(** * shopping-memo-flask: a shallow embedding of [app.py]

    The handlers of [app.py] are modelled as pure functions over an explicit
    database value and an explicit login session.  The collaborators the
    program only calls (password hashing, primary-key allocation) are section
    variables; the library functions whose exact result matters
    ([str.strip], [str.splitlines], [str.join], [markupsafe.escape]) are
    written out on lists of Unicode code points. *)

From Stdlib Require Import List NArith ZArith Bool String Ascii Lia.
From Stdlib Require Import Sorting.Permutation Sorting.Sorted.
Import ListNotations.

(** ** Python strings *)

(** A Python [str] is a sequence of Unicode code points. *)
Definition pystr := list N.

(** An ASCII literal read as a [str]. *)
Definition py (s : string) : pystr :=
  map N_of_ascii (list_ascii_of_string s).

Definition LF : N := 10.
Definition CR : N := 13.

Fixpoint pystr_eqb (a b : pystr) : bool :=
  match a, b with
  | [], [] => true
  | x :: a', y :: b' => N.eqb x y && pystr_eqb a' b'
  | _, _ => false
  end.

(** Truthiness of a [str]: [not s] holds of the empty string only. *)
Definition py_not (s : pystr) : bool :=
  match s with
  | [] => true
  | _ :: _ => false
  end.

(** [str.isspace] on one code point: the characters [str.strip()] removes. *)
Definition isspace (c : N) : bool :=
  ((9 <=? c) && (c <=? 13) || (28 <=? c) && (c <=? 32)
   || (c =? 133) || (c =? 160) || (c =? 5760)
   || (8192 <=? c) && (c <=? 8202)
   || (c =? 8232) || (c =? 8233) || (c =? 8239) || (c =? 8287)
   || (c =? 12288))%N.

Fixpoint lstrip (s : pystr) : pystr :=
  match s with
  | [] => []
  | c :: s' => if isspace c then lstrip s' else s
  end.

Definition rstrip (s : pystr) : pystr := rev (lstrip (rev s)).

(** [s.strip()] *)
Definition strip (s : pystr) : pystr := rstrip (lstrip s).

(** The line boundaries of [str.splitlines]. *)
Definition is_linebreak (c : N) : bool :=
  ((10 <=? c) && (c <=? 13) || (28 <=? c) && (c <=? 30)
   || (c =? 133) || (c =? 8232) || (c =? 8233))%N.

(** [s.splitlines()]: the lines of [s] without their line breaks; a carriage
    return followed by a line feed is one boundary, and a final line break
    opens no further line. *)
Fixpoint splitlines (s : pystr) : list pystr :=
  match s with
  | [] => []
  | c :: rest =>
      if is_linebreak c then
        [] :: match rest with
              | c' :: rest' =>
                  if (c =? CR)%N && (c' =? LF)%N then splitlines rest'
                  else splitlines rest
              | [] => []
              end
      else
        match splitlines rest with
        | [] => [[c]]
        | l :: ls => (c :: l) :: ls
        end
  end.

(** [sep.join(parts)] *)
Fixpoint join (sep : pystr) (parts : list pystr) : pystr :=
  match parts with
  | [] => []
  | [p] => p
  | p :: ps => p ++ sep ++ join sep ps
  end.

(** [markupsafe.escape] on one code point. *)
Definition escape_char (c : N) : pystr :=
  if (c =? 38)%N then py "&amp;"
  else if (c =? 60)%N then py "&lt;"
  else if (c =? 62)%N then py "&gt;"
  else if (c =? 39)%N then py "&#39;"
  else if (c =? 34)%N then py "&#34;"
  else [c].

(** [markupsafe.escape(s)] for a plain [str]. *)
Definition escape (s : pystr) : pystr := flat_map escape_char s.

(** The separator of [nl2br_filter]: the four characters of the break tag
    followed by a line feed. *)
Definition br_sep : pystr := py "<br>" ++ [LF].

(** [nl2br_filter(s)]; [None] is Python's [None]. *)
Definition nl2br_filter (s : option pystr) : pystr :=
  match s with
  | None => []
  | Some s => join br_sep (splitlines (escape s))
  end.

(** ** Requests *)

Inductive Method := GET | POST.

(** [request.form]: a multi-dict; [get] answers the first value of a key. *)
Definition Form := list (string * pystr).

Fixpoint form_get (f : Form) (key : string) (default : pystr) : pystr :=
  match f with
  | [] => default
  | (k, v) :: f' => if String.eqb k key then v else form_get f' key default
  end.

Record Request := { method : Method; form : Form }.

(** What a request takes from its surroundings: the database clock that
    fills [created_at], and the salt [generate_password_hash] draws. *)
Record Env := { now : Z; salt : pystr }.

(** ** Models *)

Module User.
Record t := mk { id : Z; username : pystr; password_hash : pystr }.
End User.

Module Memo.
(** [content] is the one nullable column the handlers write. *)
Record t := mk {
  id : Z;
  title : pystr;
  content : option pystr;
  created_at : Z;
  user_id : Z
}.
End Memo.

(** The two tables, rows in insertion order. *)
Record DB := { users : list User.t; memos : list Memo.t }.

Definition empty_db : DB := {| users := []; memos := [] |}.

(** The user id Flask-Login keeps in the session cookie, if any. *)
Definition Session := option Z.

(** ** Responses *)

(** The flashed texts, one constructor per distinct message of [app.py];
    [msg_login_required] is Flask-Login's own notice. *)
Inductive Flash :=
| msg_credentials_required   (* register: username and password are required *)
| msg_username_taken         (* register: that username is already in use *)
| msg_account_created        (* register: account created, please log in *)
| msg_bad_credentials        (* login: username or password is wrong *)
| msg_logged_out             (* logout *)
| msg_title_required         (* new_memo: a title is required *)
| msg_memo_saved             (* new_memo *)
| msg_forbidden              (* edit_memo, delete_memo: that operation is not allowed *)
| msg_memo_updated           (* edit_memo *)
| msg_memo_deleted           (* delete_memo *)
| msg_login_required.

(** The targets of [url_for]. *)
Inductive Endpoint := ep_index | ep_register | ep_login | ep_new_memo.

Inductive Body :=
| render_index (ms : list Memo.t)
| render_register
| render_login
| render_memo_form (memo : option Memo.t)
| redirect (e : Endpoint)
| abort (code : Z).

Record Outcome := {
  out_db : DB;
  out_session : Session;
  out_flash : list Flash;
  out_body : Body
}.

(** A response that writes nothing. *)
Definition respond (db : DB) (sess : Session) (fl : list Flash) (b : Body) : Outcome :=
  {| out_db := db; out_session := sess; out_flash := fl; out_body := b |}.

(** ** Queries *)

(** [User.query.get(id)] *)
Definition User_get (db : DB) (uid : Z) : option User.t :=
  find (fun u => Z.eqb (User.id u) uid) (users db).

(** [User.query.filter_by(username=name).first()] *)
Definition User_first_by_username (db : DB) (name : pystr) : option User.t :=
  find (fun u => pystr_eqb (User.username u) name) (users db).

(** [Memo.query.get(id)]; [get_or_404] aborts on [None]. *)
Definition Memo_get (db : DB) (mid : Z) : option Memo.t :=
  find (fun m => Z.eqb (Memo.id m) mid) (memos db).

(** [Memo.query.filter_by(user_id=uid)] *)
Definition Memo_filter_by_user (db : DB) (uid : Z) : list Memo.t :=
  filter (fun m => Z.eqb (Memo.user_id m) uid) (memos db).

Fixpoint insert_desc (m : Memo.t) (l : list Memo.t) : list Memo.t :=
  match l with
  | [] => [m]
  | x :: l' =>
      if (Memo.created_at x <=? Memo.created_at m)%Z then m :: l
      else x :: insert_desc m l'
  end.

(** [.order_by(Memo.created_at.desc())].  Rows of equal [created_at] keep
    their table order here; SQL itself leaves their order open, and nothing
    below depends on it. *)
Definition order_by_created_at_desc (l : list Memo.t) : list Memo.t :=
  fold_right insert_desc [] l.

(** [load_user] applied to the id of the session. *)
Definition current_user (db : DB) (sess : Session) : option User.t :=
  match sess with
  | Some uid => User_get db uid
  | None => None
  end.

(** [UPDATE memo SET title, content WHERE id = mid] *)
Definition Memo_update (db : DB) (mid : Z) (t : pystr) (c : option pystr) : DB :=
  {| users := users db;
     memos := map (fun m =>
                     if Z.eqb (Memo.id m) mid
                     then Memo.mk (Memo.id m) t c (Memo.created_at m) (Memo.user_id m)
                     else m) (memos db) |}.

(** [DELETE FROM memo WHERE id = mid] *)
Definition Memo_delete (db : DB) (mid : Z) : DB :=
  {| users := users db;
     memos := filter (fun m => negb (Z.eqb (Memo.id m) mid)) (memos db) |}.

(** [@login_required]: without a current user the view is not run. *)
Definition login_required (view : User.t -> Outcome) (db : DB) (sess : Session) : Outcome :=
  match current_user db sess with
  | Some u => view u
  | None => respond db sess [msg_login_required] (redirect ep_login)
  end.

(** ** Handlers *)

Section App.

(** [werkzeug.security]: hashing draws a salt, checking is a function of
    the stored hash and the candidate password. *)
Variable generate_password_hash : pystr -> pystr -> pystr.
Variable check_password_hash : pystr -> pystr -> bool.

(** The primary key the database gives a new row, from the keys in use. *)
Variable fresh_id : list Z -> Z.

(** [User.check_password] *)
Definition check_password (u : User.t) (password : pystr) : bool :=
  check_password_hash (User.password_hash u) password.

(** [db.session.add(u); db.session.commit()] for [User(username=...)]
    after [set_password]. *)
Definition User_add (env : Env) (db : DB) (name password : pystr) : DB :=
  {| users := users db ++
              [User.mk (fresh_id (map User.id (users db))) name
                       (generate_password_hash (salt env) password)];
     memos := memos db |}.

(** [db.session.add(m); db.session.commit()] for
    [Memo(title=..., content=..., user_id=...)]; [created_at] takes its
    server default. *)
Definition Memo_add (env : Env) (db : DB) (t : pystr) (c : option pystr) (uid : Z) : DB :=
  {| users := users db;
     memos := memos db ++
              [Memo.mk (fresh_id (map Memo.id (memos db))) t c (now env) uid] |}.

(** [index], app.py 67-76. *)
Definition index (db : DB) (sess : Session) : Outcome :=
  login_required
    (fun cu =>
       respond db sess []
         (render_index (order_by_created_at_desc (Memo_filter_by_user db (User.id cu)))))
    db sess.

(** [register], app.py 79-96: the username is stripped, the password is
    not. *)
Definition register (env : Env) (req : Request) (db : DB) (sess : Session) : Outcome :=
  match method req with
  | POST =>
      let username := strip (form_get (form req) "username" []) in
      let password := form_get (form req) "password" [] in
      if py_not username || py_not password then
        respond db sess [msg_credentials_required] (redirect ep_register)
      else
        match User_first_by_username db username with
        | Some _ => respond db sess [msg_username_taken] (redirect ep_register)
        | None =>
            {| out_db := User_add env db username password;
               out_session := sess;
               out_flash := [msg_account_created];
               out_body := redirect ep_login |}
        end
  | GET => respond db sess [] render_register
  end.

(** [login], app.py 99-110.  [login_user] stores the id of the user; a
    [UserMixin] user is always active, so it never declines. *)
Definition login (req : Request) (db : DB) (sess : Session) : Outcome :=
  match method req with
  | POST =>
      let username := strip (form_get (form req) "username" []) in
      let password := form_get (form req) "password" [] in
      match User_first_by_username db username with
      | Some user =>
          if check_password user password then
            {| out_db := db;
               out_session := Some (User.id user);
               out_flash := [];
               out_body := redirect ep_index |}
          else respond db sess [msg_bad_credentials] (redirect ep_login)
      | None => respond db sess [msg_bad_credentials] (redirect ep_login)
      end
  | GET => respond db sess [] render_login
  end.

(** [logout], app.py 113-118. *)
Definition logout (db : DB) (sess : Session) : Outcome :=
  login_required
    (fun _ => respond db None [msg_logged_out] (redirect ep_login))
    db sess.

(** [new_memo], app.py 121-135. *)
Definition new_memo (env : Env) (req : Request) (db : DB) (sess : Session) : Outcome :=
  login_required
    (fun cu =>
       match method req with
       | POST =>
           let title := strip (form_get (form req) "title" []) in
           let content := strip (form_get (form req) "content" []) in
           if py_not title then
             respond db sess [msg_title_required] (redirect ep_new_memo)
           else
             {| out_db := Memo_add env db title (Some content) (User.id cu);
                out_session := sess;
                out_flash := [msg_memo_saved];
                out_body := redirect ep_index |}
       | GET => respond db sess [] (render_memo_form None)
       end)
    db sess.

(** [edit_memo], app.py 138-151: [get_or_404], then the owner test, then,
    on POST only, the two assignments and the commit. *)
Definition edit_memo (memo_id : Z) (req : Request) (db : DB) (sess : Session) : Outcome :=
  login_required
    (fun cu =>
       match Memo_get db memo_id with
       | None => respond db sess [] (abort 404)
       | Some memo =>
           if negb (Z.eqb (Memo.user_id memo) (User.id cu)) then
             respond db sess [msg_forbidden] (redirect ep_index)
           else
             match method req with
             | POST =>
                 let title := strip (form_get (form req) "title" []) in
                 let content := strip (form_get (form req) "content" []) in
                 {| out_db := Memo_update db (Memo.id memo) title (Some content);
                    out_session := sess;
                    out_flash := [msg_memo_updated];
                    out_body := redirect ep_index |}
             | GET => respond db sess [] (render_memo_form (Some memo))
             end
       end)
    db sess.

(** [delete_memo], app.py 154-164.  The route admits [POST] only, so the
    view takes no request. *)
Definition delete_memo (memo_id : Z) (db : DB) (sess : Session) : Outcome :=
  login_required
    (fun cu =>
       match Memo_get db memo_id with
       | None => respond db sess [] (abort 404)
       | Some memo =>
           if negb (Z.eqb (Memo.user_id memo) (User.id cu)) then
             respond db sess [msg_forbidden] (redirect ep_index)
           else
             {| out_db := Memo_delete db (Memo.id memo);
                out_session := sess;
                out_flash := [msg_memo_deleted];
                out_body := redirect ep_index |}
       end)
    db sess.

(** [memo_redirect], app.py 168-171. *)
Definition memo_redirect (db : DB) (sess : Session) : Outcome :=
  login_required (fun _ => respond db sess [] (redirect ep_index)) db sess.

(** *** Routing *)

Inductive Route :=
| r_index
| r_register
| r_login
| r_logout
| r_new_memo
| r_edit_memo (memo_id : Z)
| r_delete_memo (memo_id : Z)
| r_memo.

(** The URL map: a method a rule does not list is answered 405. *)
Definition dispatch (env : Env) (r : Route) (req : Request) (db : DB) (sess : Session)
  : Outcome :=
  match r, method req with
  | r_index, GET => index db sess
  | r_register, _ => register env req db sess
  | r_login, _ => login req db sess
  | r_logout, GET => logout db sess
  | r_new_memo, _ => new_memo env req db sess
  | r_edit_memo i, _ => edit_memo i req db sess
  | r_delete_memo i, POST => delete_memo i db sess
  | r_memo, GET => memo_redirect db sess
  | _, _ => respond db sess [] (abort 405)
  end.

(** The databases the application can produce from the empty one, whatever
    cookie each request carries. *)
Inductive reachable : DB -> Prop :=
| reach_empty : reachable empty_db
| reach_step db env r req sess :
    reachable db -> reachable (out_db (dispatch env r req db sess)).

(** One request as the server sees it, and a run of them.  Each comes with
    its own cookie: the clients are many. *)
Record Call := {
  call_env : Env;
  call_route : Route;
  call_req : Request;
  call_sess : Session
}.

Definition run_call (db : DB) (c : Call) : DB :=
  out_db (dispatch (call_env c) (call_route c) (call_req c) db (call_sess c)).

Definition run_calls (db : DB) (cs : list Call) : DB := fold_left run_call cs db.


(** *** What the properties are stated with *)

(** The two orders on rows that [ORDER BY created_at DESC] is read with. *)
Definition newer_eq (a b : Memo.t) : Prop := (Memo.created_at b <= Memo.created_at a)%Z.
Definition newer (a b : Memo.t) : Prop := (Memo.created_at b < Memo.created_at a)%Z.

(** How many stored users carry a name. *)
Definition count_username (db : DB) (name : pystr) : nat :=
  List.length (filter (fun u => pystr_eqb (User.username u) name) (users db)).

Ltac case_handler :=
  repeat match goal with
         | |- context [match ?x with _ => _ end] => destruct x eqn:?; simpl
         end.

(** The two ways a login is refused. *)
Inductive LoginFailure (req : Request) (db : DB) : Prop :=
| unknown_username :
    User_first_by_username db (strip (form_get (form req) "username" [])) = None ->
    LoginFailure req db
| wrong_password user :
    User_first_by_username db (strip (form_get (form req) "username" [])) = Some user ->
    check_password user (form_get (form req) "password" []) = false ->
    LoginFailure req db.

(** The characters that open or close markup or an attribute value. *)
Definition is_markup (c : N) : bool :=
  ((c =? 60) || (c =? 62) || (c =? 34) || (c =? 39))%N.

(** *** A concrete instance, for the examples *)

(** A stand-in for the hash: the salt, a dollar sign, the password. *)
Definition demo_generate_password_hash (salt password : pystr) : pystr :=
  salt ++ [36%N] ++ password.

Fixpoint after_dollar (h : pystr) : pystr :=
  match h with
  | [] => []
  | c :: h' => if (c =? 36)%N then h' else after_dollar h'
  end.

Definition demo_check_password_hash (h password : pystr) : bool :=
  pystr_eqb (after_dollar h) password.

(** SQLite's rule for an integer primary key: one more than the largest. *)
Definition rowid_fresh (ids : list Z) : Z := (1 + fold_right Z.max 0 ids)%Z.

Definition demo_env : Env := {| now := 1000; salt := py "s" |}.

Definition post (f : Form) : Request := {| method := POST; form := f |}.

Definition field (key : string) (value : pystr) : string * pystr := (key, value).

Definition alice : User.t := User.mk 1 (py "alice") (py "s$pw123").
Definition bob : User.t := User.mk 2 (py "bob") (py "s$hunter2").

Definition demo_db : DB :=
  {| users := [alice; bob];
     memos := [Memo.mk 1 (py "Shopping") (Some (py "milk")) 10 1;
               Memo.mk 2 (py "Work") (Some []) 30 2;
               Memo.mk 3 (py "Books") (Some (py "SICP")) 20 1;
               Memo.mk 4 (py "Gifts") (Some []) 40 1] |}.

(** The database after Alice's registration and her first memo. *)
Definition demo_register_req : Request :=
  post [field "username" (py "  alice "); field "password" (py "pw123")].

Definition demo_memo_req : Request :=
  post [field "title" (py " Shopping"); field "content" (py "milk ")].

Definition demo_reached : DB :=
  {| users := [alice];
     memos := [Memo.mk 1 (py "Shopping") (Some (py "milk")) 1000 1] |}.

(** *** What the further properties are stated with *)

(** A cookie that names no stored user: none at all, or the id of no row. *)
Definition anonymous (db : DB) (sess : Session) : Prop :=
  match sess with
  | None => True
  | Some uid => ~ In uid (map User.id (users db))
  end.

(** The ids [User.query.get] can look up: SQLite binds a signed 64-bit
    integer, and [load_user] fails, rather than finding nobody, on an id
    outside that range.  [current_user] is the lookup for ids inside it. *)
Definition in_int64 (z : Z) : Prop := (- 2 ^ 63 <= z < 2 ^ 63)%Z.

Definition session_in_range (sess : Session) : Prop :=
  match sess with
  | None => True
  | Some uid => in_int64 uid
  end.

(** What Flask-Login answers for a view behind [@login_required]. *)
Definition to_login (db : DB) (sess : Session) : Outcome :=
  respond db sess [msg_login_required] (redirect ep_login).

(** The primary keys of both tables are keys. *)
Definition keyed (db : DB) : Prop :=
  NoDup (map User.id (users db)) /\ NoDup (map Memo.id (memos db)).

(** Every memo points at a stored user. *)
Definition owned (db : DB) : Prop :=
  Forall (fun m => In (Memo.user_id m) (map User.id (users db))) (memos db).

(** A text [strip] would leave as it is. *)
Definition trimmed (s : pystr) : Prop := strip s = s.


(** ** Properties *)

(** *** Queries and strings *)

Lemma pystr_eqb_eq (a b : pystr) : pystr_eqb a b = true <-> a = b.
Proof.
  revert b; induction a as [|x a IH]; intros [|y b]; simpl; split;
    try congruence; try reflexivity.
  - intros H. apply andb_true_iff in H as [Hx Hab].
    apply N.eqb_eq in Hx. apply IH in Hab. congruence.
  - intros H. injection H as -> ->. rewrite N.eqb_refl. simpl. now apply IH.
Qed.

Lemma py_not_true (s : pystr) : py_not s = true <-> s = [].
Proof. destruct s; simpl; split; congruence. Qed.

Lemma Memo_get_id (db : DB) (mid : Z) (m : Memo.t) :
  Memo_get db mid = Some m -> In m (memos db) /\ Memo.id m = mid.
Proof.
  unfold Memo_get. intros H. apply find_some in H as [Hin Heq].
  split; [assumption | now apply Z.eqb_eq].
Qed.


Lemma login_required_some view db sess cu :
  current_user db sess = Some cu -> login_required view db sess = view cu.
Proof. unfold login_required. now intros ->. Qed.

Lemma login_required_none view db sess :
  current_user db sess = None ->
  login_required view db sess = respond db sess [msg_login_required] (redirect ep_login).
Proof. unfold login_required. now intros ->. Qed.

(** *** Ownership *)

(** C1. A user whose id is not the memo's [user_id] is refused by both
    [edit_memo] (whatever the method and the form) and [delete_memo]: the
    answer is the redirect to the list with the refusal notice and the
    database is the one the request found, so the memo is read back as it
    was. *)
Theorem foreign_memo_edit_delete_denied
    (db : DB) (sess : Session) (B : User.t) (m : Memo.t) (req : Request) :
  current_user db sess = Some B ->
  Memo_get db (Memo.id m) = Some m ->
  User.id B <> Memo.user_id m ->
  let e := edit_memo (Memo.id m) req db sess in
  let d := delete_memo (Memo.id m) db sess in
  e = respond db sess [msg_forbidden] (redirect ep_index)
  /\ d = respond db sess [msg_forbidden] (redirect ep_index)
  /\ Memo_get (out_db e) (Memo.id m) = Some m
  /\ Memo_get (out_db d) (Memo.id m) = Some m.
Proof.
  intros Hcu Hget Hneq e d.
  assert (Hown : negb (Memo.user_id m =? User.id B)%Z = true).
  { apply negb_true_iff, Z.eqb_neq. congruence. }
  assert (He : e = respond db sess [msg_forbidden] (redirect ep_index)).
  { unfold e, edit_memo. rewrite (login_required_some _ _ _ _ Hcu), Hget, Hown.
    reflexivity. }
  assert (Hd : d = respond db sess [msg_forbidden] (redirect ep_index)).
  { unfold d, delete_memo. rewrite (login_required_some _ _ _ _ Hcu), Hget, Hown.
    reflexivity. }
  rewrite He, Hd. simpl. auto.
Qed.
(** *** Editing *)

Lemma Memo_get_update_same (db : DB) (mid : Z) (t : pystr) (c : option pystr) (m : Memo.t) :
  Memo_get db mid = Some m ->
  Memo_get (Memo_update db mid t c) mid
  = Some (Memo.mk (Memo.id m) t c (Memo.created_at m) (Memo.user_id m)).
Proof.
  unfold Memo_get, Memo_update. simpl.
  induction (memos db) as [|x l IH]; simpl; [discriminate|].
  destruct (Memo.id x =? mid)%Z eqn:E; simpl.
  - rewrite E. congruence.
  - rewrite E. exact IH.
Qed.

Lemma Memo_get_update_other (db : DB) (mid i : Z) (t : pystr) (c : option pystr) :
  i <> mid -> Memo_get (Memo_update db mid t c) i = Memo_get db i.
Proof.
  intros Hi. unfold Memo_get, Memo_update. simpl.
  induction (memos db) as [|x l IH]; simpl; [reflexivity|].
  destruct (Memo.id x =? mid)%Z eqn:E; simpl.
  - apply Z.eqb_eq in E. replace (Memo.id x =? i)%Z with false; [exact IH|].
    symmetry. apply Z.eqb_neq. congruence.
  - now rewrite IH.
Qed.

(** C7. A POST by the owner rewrites the memo: its title and content become
    the trimmed form values, with no test on the title, so an empty one is
    stored; its id, [user_id] and [created_at] stay, the table keeps its
    length, every other memo is read back as before and the users are not
    touched. *)
Theorem edit_memo_post_overwrites_title_content
    (db : DB) (sess : Session) (cu : User.t) (mid : Z) (memo : Memo.t) (req : Request) :
  current_user db sess = Some cu ->
  Memo_get db mid = Some memo ->
  Memo.user_id memo = User.id cu ->
  method req = POST ->
  let t := strip (form_get (form req) "title" []) in
  let c := strip (form_get (form req) "content" []) in
  let o := edit_memo mid req db sess in
  out_body o = redirect ep_index
  /\ out_flash o = [msg_memo_updated]
  /\ Memo_get (out_db o) mid
     = Some (Memo.mk (Memo.id memo) t (Some c) (Memo.created_at memo) (Memo.user_id memo))
  /\ (t = [] -> exists m', Memo_get (out_db o) mid = Some m' /\ Memo.title m' = [])
  /\ (forall i, i <> mid -> Memo_get (out_db o) i = Memo_get db i)
  /\ List.length (memos (out_db o)) = List.length (memos db)
  /\ map Memo.id (memos (out_db o)) = map Memo.id (memos db)
  /\ users (out_db o) = users db.
Proof.
  intros Hcu Hget Hown Hpost t c o.
  destruct (Memo_get_id _ _ _ Hget) as [_ Hid].
  assert (Ho : o = {| out_db := Memo_update db mid t (Some c);
                      out_session := sess;
                      out_flash := [msg_memo_updated];
                      out_body := redirect ep_index |}).
  { unfold o, edit_memo. rewrite (login_required_some _ _ _ _ Hcu), Hget, Hown.
    rewrite Z.eqb_refl. simpl. rewrite Hpost, Hid. reflexivity. }
  rewrite Ho. simpl.
  pose proof (Memo_get_update_same db mid t (Some c) memo Hget) as Hsame.
  repeat split.
  - exact Hsame.
  - intros Ht. eexists. split; [exact Hsame|]. exact Ht.
  - intros i Hi. now apply Memo_get_update_other.
  - apply length_map.
  - rewrite map_map. apply map_ext. intros a. now destruct (Memo.id a =? mid)%Z.
Qed.

(** *** Deleting *)






(** *** Listing *)

Lemma insert_desc_perm (m : Memo.t) (l : list Memo.t) :
  Permutation (insert_desc m l) (m :: l).
Proof.
  induction l as [|x l IH]; simpl; [apply Permutation_refl|].
  destruct (Memo.created_at x <=? Memo.created_at m)%Z.
  - apply Permutation_refl.
  - eapply perm_trans; [apply perm_skip, IH | apply perm_swap].
Qed.

Lemma order_by_perm (l : list Memo.t) : Permutation (order_by_created_at_desc l) l.
Proof.
  induction l as [|m l IH]; simpl; [constructor|].
  eapply perm_trans; [apply insert_desc_perm | now apply perm_skip].
Qed.

Lemma insert_desc_sorted (m : Memo.t) (l : list Memo.t) :
  StronglySorted newer_eq l -> StronglySorted newer_eq (insert_desc m l).
Proof.
  induction 1 as [|x l Hs IH Hall]; simpl.
  - repeat constructor.
  - destruct (Memo.created_at x <=? Memo.created_at m)%Z eqn:E.
    + apply Z.leb_le in E. constructor; [now constructor|].
      constructor; [exact E|].
      eapply Forall_impl; [|exact Hall]. unfold newer_eq. intros a Ha. lia.
    + apply Z.leb_gt in E. constructor; [exact IH|].
      eapply Permutation_Forall; [apply Permutation_sym, insert_desc_perm|].
      constructor; [unfold newer_eq; lia | exact Hall].
Qed.

Lemma order_by_sorted (l : list Memo.t) :
  StronglySorted newer_eq (order_by_created_at_desc l).
Proof.
  induction l as [|m l IH]; simpl; [constructor | now apply insert_desc_sorted].
Qed.

(** With no two rows of one time stamp, descending is strictly descending. *)
Lemma sorted_distinct_strict (l : list Memo.t) :
  StronglySorted newer_eq l -> NoDup (map Memo.created_at l) ->
  StronglySorted newer l.
Proof.
  induction 1 as [|x l Hs IH Hall]; simpl; intros Hnd; [constructor|].
  inversion Hnd as [|? ? Hnin Hnd']; subst.
  constructor; [now apply IH|].
  rewrite Forall_forall in *. intros a Ha.
  specialize (Hall a Ha). unfold newer, newer_eq in *.
  assert (Memo.created_at a <> Memo.created_at x).
  { intros Heq. apply Hnin. rewrite <- Heq. now apply in_map. }
  lia.
Qed.

(** A strictly descending arrangement of given rows is the only one. *)
Lemma strict_sorted_perm_unique (l1 l2 : list Memo.t) :
  StronglySorted newer l1 -> StronglySorted newer l2 -> Permutation l1 l2 -> l1 = l2.
Proof.
  intros H1. revert l2. induction H1 as [|a l1 Hs1 IH Hall1]; intros l2 H2 Hp.
  - apply Permutation_nil in Hp. now subst.
  - destruct H2 as [|b l2 Hs2 Hall2].
    + apply Permutation_sym, Permutation_nil in Hp. discriminate.
    + assert (Hab : a = b).
      { assert (Ha : In a (b :: l2)) by (eapply Permutation_in; [exact Hp | now left]).
        assert (Hb : In b (a :: l1))
          by (eapply Permutation_in; [apply Permutation_sym, Hp | now left]).
        destruct Ha as [Ha|Ha]; [now symmetry|].
        destruct Hb as [Hb|Hb]; [exact Hb|].
        rewrite Forall_forall in Hall1, Hall2.
        specialize (Hall1 b Hb). specialize (Hall2 a Ha).
        unfold newer in *. lia. }
      subst b. f_equal. apply IH; [exact Hs2|].
      now apply Permutation_cons_inv in Hp.
Qed.

Lemma index_logged_in (db : DB) (sess : Session) (cu : User.t) :
  current_user db sess = Some cu ->
  index db sess
  = respond db sess []
      (render_index (order_by_created_at_desc (Memo_filter_by_user db (User.id cu)))).
Proof. intros Hcu. unfold index. now rewrite (login_required_some _ _ _ _ Hcu). Qed.

Lemma own_memo_listed (db : DB) (uid : Z) (m : Memo.t) :
  In m (order_by_created_at_desc (Memo_filter_by_user db uid))
  <-> In m (memos db) /\ Memo.user_id m = uid.
Proof.
  pose proof (order_by_perm (Memo_filter_by_user db uid)) as Hperm.
  split.
  - intros Hin. apply (Permutation_in _ Hperm) in Hin.
    apply filter_In in Hin as [Hin Hu]. now apply Z.eqb_eq in Hu.
  - intros [Hin Hu]. apply (Permutation_in _ (Permutation_sym Hperm)).
    apply filter_In. split; [exact Hin | now apply Z.eqb_eq].
Qed.

(** C5, as the code has it.  For a logged-in user [index] renders a list
    that holds exactly the rows whose [user_id] is the user's id, each as
    often as the table has it, in descending order of [created_at], which
    is not always strict: two memos may carry one time stamp.  When the time
    stamps differ pairwise the order is strictly descending, and the list is
    then the one strictly descending arrangement of those rows, as
    [t3, t2, t1] for t1 < t2 < t3. *)
Theorem index_lists_own_memos_newest_first
    (db : DB) (sess : Session) (cu : User.t) :
  current_user db sess = Some cu ->
  exists ms : list Memo.t,
    index db sess = respond db sess [] (render_index ms)
    /\ Permutation ms (Memo_filter_by_user db (User.id cu))
    /\ (forall m, In m ms <-> In m (memos db) /\ Memo.user_id m = User.id cu)
    /\ StronglySorted newer_eq ms
    /\ (NoDup (map Memo.created_at ms) -> StronglySorted newer ms)
    /\ (forall l, Permutation l (Memo_filter_by_user db (User.id cu)) ->
                  StronglySorted newer l -> ms = l).
Proof.
  intros Hcu.
  exists (order_by_created_at_desc (Memo_filter_by_user db (User.id cu))).
  pose proof (order_by_perm (Memo_filter_by_user db (User.id cu))) as Hperm.
  pose proof (order_by_sorted (Memo_filter_by_user db (User.id cu))) as Hsort.
  split; [now apply index_logged_in|].
  split; [exact Hperm|].
  split; [intros m; apply own_memo_listed|].
  split; [exact Hsort|].
  split; [now apply sorted_distinct_strict|].
  intros l Hl Hs. apply strict_sorted_perm_unique; [|exact Hs|].
  - apply sorted_distinct_strict; [exact Hsort|].
    (* the time stamps of [l] are pairwise distinct, and so are ours *)
    assert (Hndl : NoDup (map Memo.created_at l)).
    { clear -Hs. induction Hs as [|a l Hs IH Hall]; simpl; constructor; [|exact IH].
      intros Hin. apply in_map_iff in Hin as [x [Hx Hin]].
      rewrite Forall_forall in Hall. specialize (Hall x Hin).
      unfold newer in Hall. lia. }
    eapply Permutation_NoDup; [|exact Hndl].
    apply Permutation_map. eapply perm_trans; [exact Hl | now apply Permutation_sym].
  - eapply perm_trans; [exact Hperm | now apply Permutation_sym].
Qed.

(** *** Creating *)

Lemma current_user_users (db db' : DB) (sess : Session) :
  users db' = users db -> current_user db' sess = current_user db sess.
Proof. unfold current_user, User_get. now intros ->. Qed.

(** C6. A POST to [new_memo] whose trimmed title is empty writes nothing and
    sends the user back to the form with the notice, where the redirect, once
    followed, renders the empty form; otherwise exactly one
    row is appended, carrying the trimmed title and content, the id of the
    current user and the current time, and the list the same user then asks
    for contains it. *)
Theorem new_memo_creates_iff_title
    (env : Env) (req : Request) (db : DB) (sess : Session) (cu : User.t) :
  current_user db sess = Some cu ->
  method req = POST ->
  let t := strip (form_get (form req) "title" []) in
  let c := strip (form_get (form req) "content" []) in
  let o := new_memo env req db sess in
  (t = [] ->
   o = respond db sess [msg_title_required] (redirect ep_new_memo)
   /\ new_memo env {| method := GET; form := [] |} (out_db o) (out_session o)
      = respond db sess [] (render_memo_form None))
  /\ (t <> [] ->
      exists m : Memo.t,
        memos (out_db o) = memos db ++ [m]
        /\ users (out_db o) = users db
        /\ Memo.title m = t
        /\ Memo.content m = Some c
        /\ Memo.user_id m = User.id cu
        /\ Memo.created_at m = now env
        /\ out_body o = redirect ep_index
        /\ out_flash o = [msg_memo_saved]
        /\ exists ms, index (out_db o) (out_session o)
                      = respond (out_db o) (out_session o) [] (render_index ms)
                      /\ In m ms).
Proof.
  intros Hcu Hpost t c o.
  unfold o, new_memo. rewrite (login_required_some _ _ _ _ Hcu), Hpost.
  fold t c. split.
  - intros ->. simpl. split; [reflexivity|].
    now rewrite (login_required_some _ _ _ _ Hcu).
  - intros Ht. destruct t as [|x t'] eqn:Et; [congruence|]. simpl.
    eexists. repeat split.
    assert (Hcu' : current_user (Memo_add env db (x :: t') (Some c) (User.id cu)) sess
                   = Some cu).
    { rewrite <- Hcu. now apply current_user_users. }
    eexists. split; [apply (index_logged_in _ _ _ Hcu')|].
    apply own_memo_listed. simpl. split; [|reflexivity].
    apply in_or_app. right. now left.
Qed.

(** *** Logging in *)

Lemma User_first_by_username_some (db : DB) (name : pystr) (u : User.t) :
  User_first_by_username db name = Some u -> In u (users db) /\ User.username u = name.
Proof.
  unfold User_first_by_username. intros H. apply find_some in H as [Hin Heq].
  split; [exact Hin | now apply pystr_eqb_eq].
Qed.

Lemma User_first_by_username_none (db : DB) (name : pystr) :
  User_first_by_username db name = None <-> ~ In name (map User.username (users db)).
Proof.
  unfold User_first_by_username. split.
  - intros H Hin. apply in_map_iff in Hin as [u [Hu Hin]].
    apply (find_none _ _ H) in Hin. rewrite <- Hu in Hin.
    assert (pystr_eqb (User.username u) (User.username u) = true)
      by now apply pystr_eqb_eq.
    congruence.
  - intros H. destruct (find _ _) as [u|] eqn:E; [|reflexivity].
    apply find_some in E as [Hin Heq]. apply pystr_eqb_eq in Heq.
    exfalso. apply H. rewrite <- Heq. now apply in_map.
Qed.

Lemma User_get_in (db : DB) (u : User.t) :
  In u (users db) -> exists u', User_get db (User.id u) = Some u' /\ User.id u' = User.id u.
Proof.
  unfold User_get. intros Hin.
  destruct (find _ _) as [u'|] eqn:E.
  - exists u'. split; [reflexivity|]. apply find_some in E as [_ E]. now apply Z.eqb_eq.
  - apply (find_none _ _ E) in Hin. now rewrite Z.eqb_refl in Hin.
Qed.

Lemma login_failure (req : Request) (db : DB) (sess : Session) :
  method req = POST -> LoginFailure req db ->
  login req db sess = respond db sess [msg_bad_credentials] (redirect ep_login).
Proof.
  intros Hpost Hf. unfold login. rewrite Hpost.
  destruct Hf as [Hnone|user Hsome Hbad].
  - now rewrite Hnone.
  - now rewrite Hsome, Hbad.
Qed.

(** C4. A POST to [login] naming a stored user whose hash accepts the
    password binds the session to that user's id and redirects to the list,
    which that session is then served; when no user has the name, and when
    the hash check fails, the outcome is one and the same: nothing written,
    the session as it was, the one notice and the redirect to the login
    page.  Any two refused logins therefore carry the same notice and body,
    whatever refused them. *)
Theorem login_success_and_generic_failure
    (req : Request) (db : DB) (sess : Session) :
  method req = POST ->
  let username := strip (form_get (form req) "username" []) in
  let password := form_get (form req) "password" [] in
  (forall user,
      User_first_by_username db username = Some user ->
      check_password user password = true ->
      login req db sess
      = {| out_db := db; out_session := Some (User.id user);
           out_flash := []; out_body := redirect ep_index |}
      /\ exists cu, current_user db (Some (User.id user)) = Some cu
                    /\ User.id cu = User.id user
                    /\ index db (Some (User.id user))
                       = respond db (Some (User.id user)) []
                           (render_index (order_by_created_at_desc
                                            (Memo_filter_by_user db (User.id user)))))
  /\ (LoginFailure req db ->
      login req db sess = respond db sess [msg_bad_credentials] (redirect ep_login))
  /\ (forall req' db' sess',
         method req' = POST -> LoginFailure req db -> LoginFailure req' db' ->
         out_flash (login req db sess) = out_flash (login req' db' sess')
         /\ out_body (login req db sess) = out_body (login req' db' sess')).
Proof.
  intros Hpost username password.
  split; [|split].
  - intros user Hsome Hok. split.
    + unfold login. rewrite Hpost. fold username password. now rewrite Hsome, Hok.
    + apply User_first_by_username_some in Hsome as [Hin _].
      destruct (User_get_in _ _ Hin) as [cu [Hcu Hid]].
      exists cu. split; [exact Hcu|]. split; [exact Hid|].
      rewrite (index_logged_in db (Some (User.id user)) cu Hcu), Hid. reflexivity.
  - now apply login_failure.
  - intros req' db' sess' Hpost' Hf Hf'.
    rewrite (login_failure req db sess Hpost Hf), (login_failure req' db' sess' Hpost' Hf').
    split; reflexivity.
Qed.

(** *** Registering *)

(** A request leaves the users alone or appends one whose name was free. *)
Lemma dispatch_users env r req db sess :
  users (out_db (dispatch env r req db sess)) = users db
  \/ exists u, User_first_by_username db (User.username u) = None
               /\ users (out_db (dispatch env r req db sess)) = users db ++ [u].
Proof.
  destruct r; unfold dispatch, index, register, login, logout, new_memo, edit_memo,
    delete_memo, memo_redirect, login_required; case_handler; auto.
  right. eexists. split; [|reflexivity]. simpl. assumption.
Qed.

Lemma reachable_usernames_unique (db : DB) :
  reachable db -> NoDup (map User.username (users db)).
Proof.
  induction 1 as [|db env r req sess Hr IH]; simpl; [constructor|].
  destruct (dispatch_users env r req db sess) as [->|[u [Hfree ->]]]; [exact IH|].
  rewrite map_app. simpl.
  apply User_first_by_username_none in Hfree.
  apply NoDup_app; [exact IH | repeat constructor; intros [] |].
  intros a Ha [<-|[]]. contradiction.
Qed.

Lemma count_unique (l : list User.t) (name : pystr) :
  NoDup (map User.username l) -> In name (map User.username l) ->
  List.length (filter (fun u => pystr_eqb (User.username u) name) l) = 1%nat.
Proof.
  induction l as [|u l IH]; simpl; intros Hnd Hin; [contradiction|].
  inversion Hnd as [|? ? Hnin Hnd']; subst.
  destruct (pystr_eqb (User.username u) name) eqn:E.
  - apply pystr_eqb_eq in E. subst name. simpl. f_equal.
    clear -Hnin. induction l as [|v l IH]; simpl; [reflexivity|].
    destruct (pystr_eqb (User.username v) (User.username u)) eqn:E.
    + apply pystr_eqb_eq in E. exfalso. apply Hnin. left. exact E.
    + apply IH. intros H. apply Hnin. now right.
  - apply IH; [exact Hnd'|]. destruct Hin as [Heq|Hin]; [|exact Hin].
    subst name. assert (pystr_eqb (User.username u) (User.username u) = true)
      by now apply pystr_eqb_eq.
    congruence.
Qed.

(** A POST with both fields filled in is refused as a duplicate exactly when
    a stored username is the trimmed name, code point for code point. *)
Lemma register_conflict_iff env req db sess :
  method req = POST ->
  strip (form_get (form req) "username" []) <> [] ->
  form_get (form req) "password" [] <> [] ->
  (register env req db sess = respond db sess [msg_username_taken] (redirect ep_register)
   <-> In (strip (form_get (form req) "username" [])) (map User.username (users db)))
  /\ (~ In (strip (form_get (form req) "username" [])) (map User.username (users db)) ->
      register env req db sess
      = {| out_db := User_add env db (strip (form_get (form req) "username" []))
                       (form_get (form req) "password" []);
           out_session := sess;
           out_flash := [msg_account_created];
           out_body := redirect ep_login |}).
Proof.
  intros Hpost Hu Hp. unfold register. rewrite Hpost.
  destruct (strip _) as [|x name] eqn:En; [congruence|].
  destruct (form_get (form req) "password" []) as [|y pw] eqn:Ep; [congruence|].
  simpl.
  destruct (User_first_by_username db (x :: name)) as [u|] eqn:E.
  - apply User_first_by_username_some in E as [Hin Hname].
    assert (In (x :: name) (map User.username (users db)))
      by (rewrite <- Hname; now apply in_map).
    split; [tauto | contradiction].
  - pose proof E as E'. apply User_first_by_username_none in E'.
    split; [|reflexivity]. split; [discriminate|contradiction].
Qed.

(** C3. From any database the application can reach, two POSTs to
    [register] under one trimmed, non-empty name, each with a password: the
    second is refused with the duplicate notice and the redirect to the
    form, writes nothing, and exactly one stored user carries the name.  The
    first is itself refused as a duplicate exactly when the name is already
    stored, code point for code point. *)
Theorem register_twice_conflict
    (env1 env2 : Env) (req1 req2 : Request) (db : DB) (sess1 sess2 : Session)
    (name : pystr) :
  reachable db ->
  method req1 = POST -> method req2 = POST ->
  strip (form_get (form req1) "username" []) = name ->
  strip (form_get (form req2) "username" []) = name ->
  name <> [] ->
  form_get (form req1) "password" [] <> [] ->
  form_get (form req2) "password" [] <> [] ->
  let o1 := register env1 req1 db sess1 in
  let o2 := register env2 req2 (out_db o1) sess2 in
  o2 = respond (out_db o1) sess2 [msg_username_taken] (redirect ep_register)
  /\ users (out_db o2) = users (out_db o1)
  /\ count_username (out_db o2) name = 1%nat
  /\ (o1 = respond db sess1 [msg_username_taken] (redirect ep_register)
      <-> In name (map User.username (users db))).
Proof.
  intros Hr Hpost1 Hpost2 Hn1 Hn2 Hne Hp1 Hp2 o1 o2.
  assert (Hexact : o1 = respond db sess1 [msg_username_taken] (redirect ep_register)
                   <-> In name (map User.username (users db))).
  { unfold o1. rewrite <- Hn1 in Hne |- *.
    apply (register_conflict_iff env1 req1 db sess1 Hpost1 Hne Hp1). }
  assert (Hr1 : reachable (out_db o1)) by apply (reach_step db env1 r_register req1 sess1 Hr).
  assert (Hin : In name (map User.username (users (out_db o1)))).
  { unfold o1. rewrite <- Hn1 in Hne.
    destruct (register_conflict_iff env1 req1 db sess1 Hpost1 Hne Hp1) as [Hiff Hnew].
    rewrite Hn1 in *.
    destruct (in_dec (list_eq_dec N.eq_dec) name (map User.username (users db)))
      as [Hold|Hfree].
    - apply Hiff in Hold. rewrite Hold. simpl. now apply Hiff.
    - rewrite (Hnew Hfree). simpl. rewrite map_app. apply in_or_app. right. now left. }
  assert (Ho2 : o2 = respond (out_db o1) sess2 [msg_username_taken] (redirect ep_register)).
  { unfold o2. rewrite <- Hn2 in Hne, Hin.
    now apply (register_conflict_iff env2 req2 (out_db o1) sess2 Hpost2 Hne Hp2). }
  rewrite Ho2. simpl. split; [reflexivity|]. split; [reflexivity|].
  split; [|exact Hexact].
  apply count_unique; [now apply reachable_usernames_unique | exact Hin].
Qed.

(** C2, as the code has it.  [register] trims the username and takes the
    password as it was sent: a POST whose trimmed username is empty, or whose
    password is empty, is answered with the notice and the redirect to the
    form and writes nothing; a POST that passes both tests under a free name
    appends one user, named by the trimmed username and hashed from the
    password untrimmed. *)
Theorem register_requires_username_and_raw_password
    (env : Env) (req : Request) (db : DB) (sess : Session) :
  method req = POST ->
  let username := strip (form_get (form req) "username" []) in
  let password := form_get (form req) "password" [] in
  let o := register env req db sess in
  (username = [] \/ password = [] ->
   o = respond db sess [msg_credentials_required] (redirect ep_register)
   /\ users (out_db o) = users db)
  /\ (username <> [] -> password <> [] ->
      User_first_by_username db username = None ->
      users (out_db o)
      = users db ++ [User.mk (fresh_id (map User.id (users db))) username
                             (generate_password_hash (salt env) password)]
      /\ out_flash o = [msg_account_created]
      /\ out_body o = redirect ep_login).
Proof.
  intros Hpost username password o.
  unfold o, register. rewrite Hpost. fold username password. split.
  - intros Hempty.
    assert (Hc : py_not username || py_not password = true).
    { apply orb_true_iff. destruct Hempty as [H|H]; [left|right]; now apply py_not_true. }
    rewrite Hc. split; reflexivity.
  - intros Hu Hp Hfree.
    assert (Hc : py_not username || py_not password = false).
    { apply orb_false_iff. split; apply not_true_is_false; intros H;
        apply py_not_true in H; contradiction. }
    rewrite Hc, Hfree. simpl. repeat split.
Qed.

(** *** Content *)

(** What a request does to the memos: every row afterwards was there before
    or carries a content that is not null. *)
Lemma dispatch_memo_content env r req db sess (m : Memo.t) :
  In m (memos (out_db (dispatch env r req db sess))) ->
  In m (memos db) \/ Memo.content m <> None.
Proof.
  destruct r; unfold dispatch, index, register, login, logout, new_memo, edit_memo,
    delete_memo, memo_redirect, login_required; case_handler; auto.
  - intros Hin. apply in_app_or in Hin as [Hin|[<-|[]]]; [now left|].
    right. simpl. discriminate.
  - intros Hin. apply in_map_iff in Hin as [x [Hx Hin]].
    destruct (Memo.id x =? _)%Z; subst m; [right; simpl; discriminate | now left].
  - intros Hin. apply filter_In in Hin. tauto.
Qed.

(** C10. Every row [new_memo] or [edit_memo] writes, that is every row of
    the table after the request that was not in it before, has a content
    that is not null, namely the trimmed form field; hence no memo of a
    database the application can reach has a null content. *)
Theorem memo_content_never_null :
  (forall env req db sess m,
      In m (memos (out_db (new_memo env req db sess))) -> ~ In m (memos db) ->
      Memo.content m = Some (strip (form_get (form req) "content" [])))
  /\ (forall memo_id req db sess m,
         In m (memos (out_db (edit_memo memo_id req db sess))) -> ~ In m (memos db) ->
         Memo.content m = Some (strip (form_get (form req) "content" [])))
  /\ (forall db, reachable db -> Forall (fun m => Memo.content m <> None) (memos db)).
Proof.
  split; [|split].
  - intros env req db sess m.
    unfold new_memo, login_required; case_handler; try contradiction.
    intros Hin Hnew. apply in_app_or in Hin as [Hin|[<-|[]]]; [contradiction|].
    reflexivity.
  - intros memo_id req db sess m.
    unfold edit_memo, login_required; case_handler; try contradiction.
    intros Hin Hnew. apply in_map_iff in Hin as [x [Hx Hin]].
    destruct (Memo.id x =? _)%Z; subst m; [reflexivity | contradiction].
  - induction 1 as [|db env r req sess Hr IH]; [constructor|].
    apply Forall_forall. intros m Hin.
    apply dispatch_memo_content in Hin as [Hin|Hc]; [|exact Hc].
    rewrite Forall_forall in IH. now apply IH.
Qed.

(** *** Rendering *)

Lemma escape_char_no_markup (x c : N) : In c (escape_char x) -> is_markup c = false.
Proof.
  unfold escape_char.
  destruct (x =? 38)%N eqn:E1; [|destruct (x =? 60)%N eqn:E2;
    [|destruct (x =? 62)%N eqn:E3; [|destruct (x =? 39)%N eqn:E4;
      [|destruct (x =? 34)%N eqn:E5]]]].
  1-5: simpl; intros H;
       repeat (destruct H as [<-|H]; [reflexivity|]); contradiction.
  intros [<-|[]]. unfold is_markup. now rewrite E2, E3, E4, E5.
Qed.

Lemma escape_no_markup (s : pystr) (c : N) : In c (escape s) -> is_markup c = false.
Proof.
  unfold escape. intros H. apply in_flat_map in H as [x [_ H]].
  now apply escape_char_no_markup in H.
Qed.

(** Induction for functions that, like [splitlines], may step over two
    characters at once. *)
Lemma pystr_ind2 (P : pystr -> Prop) :
  P [] ->
  (forall a s, P s -> (forall b s', s = b :: s' -> P s') -> P (a :: s)) ->
  forall s, P s.
Proof.
  intros Hnil Hcons s.
  enough (H : P s /\ (forall b s', s = b :: s' -> P s')) by apply H.
  induction s as [|a s [IH1 IH2]].
  - split; [exact Hnil | discriminate].
  - split; [now apply Hcons|]. intros b s' E. injection E as _ <-. exact IH1.
Qed.

(** Every character of a line is a character of the text. *)
Lemma splitlines_chars (s : pystr) :
  forall l c, In l (splitlines s) -> In c l -> In c s.
Proof.
  induction s as [|a s IH IH2] using pystr_ind2; simpl; [contradiction|].
  intros l c. destruct (is_linebreak a).
  - intros [<-|Hl]; [contradiction|]. intros Hc. right.
    destruct s as [|b s']; [contradiction|].
    destruct ((a =? CR)%N && (b =? LF)%N).
    + right. apply (IH2 b s' eq_refl l c Hl Hc).
    + apply (IH l c Hl Hc).
  - destruct (splitlines s) as [|l0 ls].
    + intros [<-|[]] [<-|[]]. now left.
    + intros [<-|Hl] Hc.
      * destruct Hc as [<-|Hc]; [now left|]. right. apply (IH l0 c); [now left | exact Hc].
      * right. apply (IH l c); [now right | exact Hc].
Qed.

Lemma escape_char_linebreak (c : N) : is_linebreak c = true -> escape_char c = [c].
Proof.
  intros Hb. unfold escape_char.
  repeat match goal with
         | |- context [(c =? ?k)%N] =>
             destruct (N.eqb_spec c k) as [->|_]; [discriminate Hb|]
         end.
  reflexivity.
Qed.

Lemma escape_char_plain (c : N) :
  is_linebreak c = false ->
  escape_char c <> [] /\ Forall (fun x => is_linebreak x = false) (escape_char c).
Proof.
  intros Hb. unfold escape_char.
  repeat match goal with
         | |- context [(c =? ?k)%N] =>
             destruct (N.eqb_spec c k) as [->|_];
             [split; [discriminate | repeat constructor]|]
         end.
  split; [discriminate | repeat constructor; exact Hb].
Qed.

(** The first character of an escaped text is a line feed only if the text
    began with one. *)
Lemma escape_head (b : N) (r : pystr) :
  exists h t, escape (b :: r) = h :: t /\ (h = LF -> b = LF).
Proof.
  unfold escape. simpl. unfold escape_char.
  repeat match goal with
         | |- context [(b =? ?k)%N] =>
             destruct (N.eqb_spec b k) as [->|_];
             [simpl; eexists; eexists; split; [reflexivity | discriminate]|]
         end.
  simpl. eexists; eexists; split; [reflexivity | auto].
Qed.

(** A run of characters that break no line is glued to the first line of
    what follows. *)
Lemma splitlines_plain_prefix (p t : pystr) :
  Forall (fun x => is_linebreak x = false) p -> p <> [] ->
  splitlines (p ++ t)
  = match splitlines t with
    | [] => [p]
    | l :: ls => (p ++ l) :: ls
    end.
Proof.
  induction 1 as [|a p Ha Hp IH]; intros Hne; [congruence|].
  simpl. rewrite Ha. destruct p as [|a' p'].
  - simpl. destruct (splitlines t); reflexivity.
  - rewrite IH by discriminate. destruct (splitlines t); reflexivity.
Qed.

(** Escaping touches no line boundary: the lines of the escaped text are the
    escaped lines of the text. *)
Lemma splitlines_escape (s : pystr) :
  splitlines (escape s) = map escape (splitlines s).
Proof.
  induction s as [|a s IH IH2] using pystr_ind2; [reflexivity|].
  change (escape (a :: s)) with (escape_char a ++ escape s).
  destruct (is_linebreak a) eqn:Ha.
  - rewrite (escape_char_linebreak _ Ha). simpl. rewrite Ha. simpl. f_equal.
    destruct s as [|b r]; [reflexivity|].
    destruct (escape_head b r) as [h [t [Eh Hh]]]. rewrite Eh.
    destruct (N.eqb_spec b LF) as [->|Hb].
    + (* the text goes on with a line feed, and so does its escape *)
      change (escape (LF :: r)) with (LF :: escape r) in Eh, IH.
      injection Eh as <- <-.
      destruct (a =? CR)%N; simpl.
      * exact (IH2 LF r eq_refl).
      * exact IH.
    + assert (Hne : (h =? LF)%N = false) by (apply N.eqb_neq; auto).
      rewrite Hne, !andb_false_r. rewrite <- Eh. exact IH.
  - destruct (escape_char_plain _ Ha) as [Hne Hall].
    rewrite (splitlines_plain_prefix _ _ Hall Hne), IH. simpl. rewrite Ha.
    destruct (splitlines s) as [|l ls]; simpl.
    + now rewrite app_nil_r.
    + unfold escape. simpl. reflexivity.
Qed.

(** C9, as the code has it.  [nl2br_filter] gives the empty string for
    [None]; for a string it escapes the whole text first, then splits it
    into lines and joins them with the break tag followed by a line feed,
    which is the same as joining the escaped lines; no line it joins holds a
    markup character, so the only tags of the result are the breaks it
    inserted; and milk, line feed, eggs comes out as milk, the break tag, a
    line feed, eggs. *)
Theorem nl2br_filter_escapes_then_breaks :
  nl2br_filter None = []
  /\ (forall s, nl2br_filter (Some s) = join br_sep (splitlines (escape s)))
  /\ (forall s, nl2br_filter (Some s) = join br_sep (map escape (splitlines s)))
  /\ (forall s l c, In l (splitlines (escape s)) -> In c l -> is_markup c = false)
  /\ nl2br_filter (Some (py "milk" ++ [LF] ++ py "eggs"))
     = py "milk<br>" ++ [LF] ++ py "eggs"
  /\ nl2br_filter (Some (py "<b>milk" ++ [CR; LF] ++ py "eggs & ham</b>" ++ [LF]))
     = py "&lt;b&gt;milk<br>" ++ [LF] ++ py "eggs &amp; ham&lt;/b&gt;".
Proof.
  split; [reflexivity|]. split; [reflexivity|].
  split; [intros s; simpl; now rewrite splitlines_escape|].
  split; [|split; reflexivity].
  intros s l c Hl Hc. apply (escape_no_markup s). now apply (splitlines_chars _ l).
Qed.

(** ** Further properties *)

(** *** Sessions *)

Lemma current_user_anonymous (db : DB) (sess : Session) :
  current_user db sess = None <-> anonymous db sess.
Proof.
  destruct sess as [uid|]; simpl; [|tauto]. unfold User_get. split.
  - intros H Hin. apply in_map_iff in Hin as [u [Hu Hin]].
    apply (find_none _ _ H) in Hin. apply Z.eqb_neq in Hin. contradiction.
  - intros H. destruct (find _ _) as [u|] eqn:E; [|reflexivity].
    apply find_some in E as [Hin E]. apply Z.eqb_eq in E.
    exfalso. apply H. rewrite <- E. now apply in_map.
Qed.

Lemma current_user_id (db : DB) (uid : Z) (u : User.t) :
  current_user db (Some uid) = Some u -> In u (users db) /\ User.id u = uid.
Proof.
  simpl. unfold User_get. intros H. apply find_some in H as [Hin H].
  split; [exact Hin | now apply Z.eqb_eq].
Qed.

(** X1. Behind [@login_required] a request whose cookie names no stored
    user, be it absent or stale with an id the database can look up (a
    signed 64-bit integer), runs no view: each of the six protected views
    answers with the redirect to the login page, writes nothing and leaves
    the cookie as it is. *)
Theorem protected_views_need_a_user
    (env : Env) (req : Request) (memo_id : Z) (db : DB) (sess : Session) :
  session_in_range sess ->
  anonymous db sess ->
  index db sess = to_login db sess
  /\ logout db sess = to_login db sess
  /\ new_memo env req db sess = to_login db sess
  /\ edit_memo memo_id req db sess = to_login db sess
  /\ delete_memo memo_id db sess = to_login db sess
  /\ memo_redirect db sess = to_login db sess.
Proof.
  intros _ Ha. apply current_user_anonymous in Ha.
  unfold index, logout, new_memo, edit_memo, delete_memo, memo_redirect, to_login.
  rewrite !(login_required_none _ _ _ Ha). repeat split.
Qed.

(** X2. [logout] by a logged-in user clears the session and writes nothing;
    with the session it leaves, the list and the memo views answer with the
    redirect to the login page. *)
Theorem logout_ends_the_session
    (env : Env) (req : Request) (memo_id : Z) (db : DB) (sess : Session) (cu : User.t) :
  current_user db sess = Some cu ->
  let o := logout db sess in
  o = respond db None [msg_logged_out] (redirect ep_login)
  /\ index (out_db o) (out_session o) = to_login db None
  /\ new_memo env req (out_db o) (out_session o) = to_login db None
  /\ edit_memo memo_id req (out_db o) (out_session o) = to_login db None
  /\ delete_memo memo_id (out_db o) (out_session o) = to_login db None.
Proof.
  intros Hcu o.
  assert (Ho : o = respond db None [msg_logged_out] (redirect ep_login)).
  { unfold o, logout. now rewrite (login_required_some _ _ _ _ Hcu). }
  rewrite Ho. simpl. repeat split.
Qed.

(** X3. Only a successful login and a logout touch the session: after any
    request the session is the one it came with, or the id of a stored user
    set by the login route, or none, set by the logout route. *)
Theorem session_changes_only_by_login_logout
    (env : Env) (r : Route) (req : Request) (db : DB) (sess : Session) :
  let o := dispatch env r req db sess in
  out_session o = sess
  \/ (r = r_login /\ method req = POST
      /\ exists u, In u (users db) /\ out_session o = Some (User.id u)
                   /\ check_password u (form_get (form req) "password" []) = true)
  \/ (r = r_logout /\ out_session o = None).
Proof.
  destruct r; unfold dispatch, index, register, login, logout, new_memo, edit_memo,
    delete_memo, memo_redirect, login_required; case_handler; auto.
  right. left. repeat split.
  match goal with
  | H : User_first_by_username _ _ = Some ?u |- _ =>
      exists u; apply User_first_by_username_some in H as [Hin _]
  end.
  repeat split; assumption.
Qed.

(** *** Reads and writes *)

(** X4. A GET writes nothing, whatever the route, the cookie and the query;
    on the delete route it does not even reach the view. *)
Theorem get_never_writes
    (env : Env) (r : Route) (req : Request) (db : DB) (sess : Session) :
  method req = GET ->
  out_db (dispatch env r req db sess) = db
  /\ (forall i, r = r_delete_memo i ->
                dispatch env r req db sess = respond db sess [] (abort 405)).
Proof.
  intros Hget. split.
  - destruct r; unfold dispatch, index, register, login, logout, new_memo, edit_memo,
      delete_memo, memo_redirect, login_required; rewrite Hget; case_handler;
      reflexivity.
  - intros i ->. unfold dispatch. now rewrite Hget.
Qed.

Lemma dispatch_users_frame env r req db sess :
  r <> r_register -> users (out_db (dispatch env r req db sess)) = users db.
Proof.
  intros Hr. destruct r; try congruence;
    unfold dispatch, index, login, logout, new_memo, edit_memo,
      delete_memo, memo_redirect, login_required; case_handler; reflexivity.
Qed.

Lemma run_calls_users (cs : list Call) (db : DB) :
  exists added, users (run_calls db cs) = users db ++ added.
Proof.
  revert db. induction cs as [|c cs IH]; intros db; simpl.
  - exists []. now rewrite app_nil_r.
  - destruct (IH (run_call db c)) as [added Hadd]. rewrite Hadd. unfold run_call.
    destruct (dispatch_users (call_env c) (call_route c) (call_req c) db (call_sess c))
      as [->|[u [_ ->]]].
    + now exists added.
    + exists (u :: added). now rewrite <- app_assoc.
Qed.

(** X5. No request changes or removes a user: after any run of requests the
    users table is the old one with rows appended, so every user is still
    found under its id with its name and hash; and a single request that is
    not on the register route leaves the table as it is. *)
Theorem users_are_append_only (cs : list Call) (db : DB) :
  (exists added, users (run_calls db cs) = users db ++ added)
  /\ (forall uid u, User_get db uid = Some u -> User_get (run_calls db cs) uid = Some u)
  /\ (forall env r req sess,
         r <> r_register -> users (out_db (dispatch env r req db sess)) = users db).
Proof.
  destruct (run_calls_users cs db) as [added Hadd].
  split; [now exists added|]. split.
  - intros uid u. unfold User_get. rewrite Hadd. intros H.
    apply find_some in H as H'.
    clear -H. induction (users db) as [|x l IH]; simpl in *; [discriminate|].
    destruct (User.id x =? uid)%Z; [exact H | now apply IH].
  - intros env r req sess. apply dispatch_users_frame.
Qed.

(** X6. The memos table is written by the three memo routes only: a request
    on the index, register, login, logout or compatibility route leaves
    every memo as it is. *)
Theorem memos_written_by_memo_routes_only
    (env : Env) (r : Route) (req : Request) (db : DB) (sess : Session) :
  r = r_index \/ r = r_register \/ r = r_login \/ r = r_logout \/ r = r_memo ->
  memos (out_db (dispatch env r req db sess)) = memos db.
Proof.
  intros [->|[->|[->|[->| ->]]]];
    unfold dispatch, index, register, login, logout, memo_redirect, login_required;
    case_handler; reflexivity.
Qed.

(** *** Registering, then logging in *)

Lemma find_app_new {A : Type} (f : A -> bool) (l : list A) (x : A) :
  find f l = None -> f x = true -> find f (l ++ [x]) = Some x.
Proof.
  induction l as [|a l IH]; simpl; intros Hn Hx; [now rewrite Hx|].
  destruct (f a); [discriminate | now apply IH].
Qed.

(** X7. A registration that goes through can be used at once: when the hash
    accepts the password it was drawn from, a login with the same form finds
    the new user, binds the session to its id and redirects to the list. *)
Theorem register_then_login
    (env : Env) (req : Request) (db : DB) (sess sess' : Session) :
  method req = POST ->
  let username := strip (form_get (form req) "username" []) in
  let password := form_get (form req) "password" [] in
  username <> [] -> password <> [] ->
  ~ In username (map User.username (users db)) ->
  check_password_hash (generate_password_hash (salt env) password) password = true ->
  let o := register env req db sess in
  exists u : User.t,
    users (out_db o) = users db ++ [u]
    /\ User.username u = username
    /\ out_body o = redirect ep_login
    /\ login req (out_db o) sess'
       = {| out_db := out_db o; out_session := Some (User.id u);
            out_flash := []; out_body := redirect ep_index |}
    /\ current_user (out_db o) (Some (User.id u)) <> None.
Proof.
  intros Hpost username password Hu Hp Hfree Hhash o.
  destruct (register_conflict_iff env req db sess Hpost Hu Hp) as [_ Hnew].
  unfold o. rewrite (Hnew Hfree). fold username password. simpl.
  eexists. split; [reflexivity|]. split; [reflexivity|]. split; [reflexivity|].
  split.
  - unfold login. rewrite Hpost. fold username password.
    unfold User_first_by_username. simpl.
    rewrite find_app_new; [| now apply User_first_by_username_none
                           | now apply pystr_eqb_eq].
    unfold check_password. simpl. now rewrite Hhash.
  - intros Hnone.
    apply (current_user_anonymous (User_add env db username password) (Some _)) in Hnone.
    apply Hnone. simpl. rewrite map_app. apply in_or_app. right. now left.
Qed.

(** *** Stored text *)

Lemma lstrip_head (s : pystr) :
  lstrip s = [] \/ exists c t, lstrip s = c :: t /\ isspace c = false.
Proof.
  induction s as [|c s IH]; simpl; [now left|].
  destruct (isspace c) eqn:E; [exact IH|]. right. now exists c, s.
Qed.

Lemma lstrip_snoc (a : pystr) (c : N) :
  isspace c = false -> lstrip (a ++ [c]) = lstrip a ++ [c].
Proof.
  intros Hc. induction a as [|x a IH]; simpl; [now rewrite Hc|].
  destruct (isspace x); [exact IH | reflexivity].
Qed.

Lemma rstrip_cons (c : N) (t : pystr) :
  isspace c = false -> rstrip (c :: t) = c :: rstrip t.
Proof.
  intros Hc. unfold rstrip. simpl. rewrite (lstrip_snoc _ _ Hc), rev_app_distr.
  reflexivity.
Qed.

Lemma lstrip_idem (s : pystr) : lstrip (lstrip s) = lstrip s.
Proof.
  destruct (lstrip_head s) as [->|[c [t [-> Hc]]]]; simpl; [reflexivity|].
  now rewrite Hc.
Qed.

Lemma rstrip_idem (s : pystr) : rstrip (rstrip s) = rstrip s.
Proof. unfold rstrip. now rewrite rev_involutive, lstrip_idem. Qed.

Lemma strip_idem (s : pystr) : strip (strip s) = strip s.
Proof.
  unfold strip. destruct (lstrip_head s) as [->|[c [t [-> Hc]]]]; [reflexivity|].
  rewrite (rstrip_cons _ _ Hc). simpl. rewrite Hc, (rstrip_cons _ _ Hc), rstrip_idem.
  reflexivity.
Qed.

Lemma length_lstrip (s : pystr) : (List.length (lstrip s) <= List.length s)%nat.
Proof.
  induction s as [|c s IH]; simpl; [lia|]. destruct (isspace c); simpl; lia.
Qed.

Lemma length_rstrip (s : pystr) : (List.length (rstrip s) <= List.length s)%nat.
Proof.
  unfold rstrip. rewrite length_rev.
  pose proof (length_lstrip (rev s)) as H. now rewrite length_rev in H.
Qed.

(** A trimmed text neither begins nor ends with white space. *)
Lemma trimmed_ends (s : pystr) :
  trimmed s ->
  (forall c t, s = c :: t -> isspace c = false)
  /\ (forall c t, s = t ++ [c] -> isspace c = false).
Proof.
  unfold trimmed, strip. intros Hs.
  assert (Hl : lstrip s = s).
  { destruct (list_eq_dec N.eq_dec (lstrip s) s) as [E|Hne]; [exact E|].
    exfalso. pose proof (length_rstrip (lstrip s)) as H1.
    rewrite Hs in H1.
    pose proof (length_lstrip s) as H2.
    assert (List.length (lstrip s) = List.length s) by lia.
    apply Hne. clear -H. induction s as [|c s IH]; simpl in *; [reflexivity|].
    destruct (isspace c); [|reflexivity].
    pose proof (length_lstrip s). lia. }
  rewrite Hl in Hs. split.
  - intros c t ->. simpl in Hl. destruct (isspace c) eqn:E; [|reflexivity].
    pose proof (length_lstrip t) as H. rewrite Hl in H. simpl in H. lia.
  - intros c t ->. unfold rstrip in Hs. rewrite rev_app_distr in Hs. simpl in Hs.
    destruct (isspace c) eqn:E; [|reflexivity].
    apply (f_equal (@List.length N)) in Hs.
    rewrite length_rev, length_app in Hs. simpl in Hs.
    pose proof (length_lstrip (rev t)) as H. rewrite length_rev in H. lia.
Qed.

Lemma dispatch_user_text env r req db sess (u : User.t) :
  In u (users (out_db (dispatch env r req db sess))) ->
  In u (users db) \/ (User.username u <> [] /\ trimmed (User.username u)).
Proof.
  destruct r; unfold dispatch, index, register, login, logout, new_memo, edit_memo,
    delete_memo, memo_redirect, login_required; case_handler; auto.
  intros Hin. apply in_app_or in Hin as [Hin|[<-|[]]]; [now left|]. right. simpl.
  match goal with
  | H : _ || _ = false |- _ => apply orb_false_iff in H as [Hn _]
  end.
  split; [|apply strip_idem].
  intros E. rewrite E in Hn. discriminate.
Qed.

Lemma dispatch_memo_text env r req db sess (m : Memo.t) :
  In m (memos (out_db (dispatch env r req db sess))) ->
  In m (memos db)
  \/ (trimmed (Memo.title m) /\ exists c, Memo.content m = Some c /\ trimmed c).
Proof.
  destruct r; unfold dispatch, index, register, login, logout, new_memo, edit_memo,
    delete_memo, memo_redirect, login_required; case_handler; auto.
  - intros Hin. apply in_app_or in Hin as [Hin|[<-|[]]]; [now left|].
    right. simpl. split; [apply strip_idem|]. eexists. split; [reflexivity|].
    apply strip_idem.
  - intros Hin. apply in_map_iff in Hin as [x [Hx Hin]].
    destruct (Memo.id x =? _)%Z; subst m; [|now left].
    right. simpl. split; [apply strip_idem|]. eexists. split; [reflexivity|].
    apply strip_idem.
  - intros Hin. apply filter_In in Hin. tauto.
Qed.

(** X8. Whatever the application has stored came through [strip]: in every
    database it can reach each username is non-empty and has no white space
    at either end, and each memo's title and content are trimmed likewise. *)
Theorem stored_text_is_trimmed (db : DB) :
  reachable db ->
  Forall (fun u => User.username u <> [] /\ trimmed (User.username u)) (users db)
  /\ Forall (fun m => trimmed (Memo.title m)
                      /\ exists c, Memo.content m = Some c /\ trimmed c) (memos db)
  /\ (forall u c t, In u (users db) ->
                    User.username u = c :: t \/ User.username u = t ++ [c] ->
                    isspace c = false).
Proof.
  intros Hr.
  assert (H : Forall (fun u => User.username u <> [] /\ trimmed (User.username u))
                (users db)
              /\ Forall (fun m => trimmed (Memo.title m)
                                  /\ exists c, Memo.content m = Some c /\ trimmed c)
                   (memos db)).
  { induction Hr as [|db env r req sess Hr [IHu IHm]]; [split; constructor|].
    rewrite Forall_forall in IHu, IHm. split; apply Forall_forall.
    - intros u Hin. apply dispatch_user_text in Hin as [Hin|Hu]; auto.
    - intros m Hin. apply dispatch_memo_text in Hin as [Hin|Hm]; auto. }
  destruct H as [Hu Hm]. split; [exact Hu|]. split; [exact Hm|].
  intros u c t Hin Hends. rewrite Forall_forall in Hu.
  destruct (Hu u Hin) as [_ Ht]. apply trimmed_ends in Ht as [Hfirst Hlast].
  destruct Hends as [E|E]; [now apply (Hfirst c t) | now apply (Hlast c t)].
Qed.

(** *** Keys and owners *)

Lemma NoDup_snoc {A : Type} (l : list A) (x : A) :
  NoDup l -> ~ In x l -> NoDup (l ++ [x]).
Proof.
  intros Hl Hx. apply NoDup_app; [exact Hl | repeat constructor; intros [] |].
  intros a Ha [<-|[]]. contradiction.
Qed.

(** Removing rows keeps the remaining ids apart. *)
Lemma Memo_delete_keeps_keys (rows : list Memo.t) (mid : Z) :
  NoDup (map Memo.id rows) ->
  NoDup (map Memo.id (filter (fun m => negb (Z.eqb (Memo.id m) mid)) rows)).
Proof.
  induction rows as [|row rows IH]; intros Hkeys; simpl; [constructor|].
  apply NoDup_cons_iff in Hkeys as [Hnew Hkeys].
  destruct (negb (Memo.id row =? mid)%Z); [|exact (IH Hkeys)].
  simpl. apply NoDup_cons; [|exact (IH Hkeys)].
  contradict Hnew.
  apply in_map_iff in Hnew as [other [Hid Hother]].
  apply filter_In in Hother as [Hother _].
  rewrite <- Hid. now apply in_map.
Qed.

Lemma dispatch_keyed env r req db sess :
  (forall ids, ~ In (fresh_id ids) ids) ->
  keyed db -> keyed (out_db (dispatch env r req db sess)).
Proof.
  intros Hfresh [Hu Hm].
  destruct r; unfold dispatch, index, register, login, logout, new_memo, edit_memo,
    delete_memo, memo_redirect, login_required; case_handler;
    try (split; assumption); split; simpl; try assumption.
  - rewrite map_app. apply NoDup_snoc; [exact Hu | apply Hfresh].
  - rewrite map_app. apply NoDup_snoc; [exact Hm | apply Hfresh].
  - rewrite map_map.
    erewrite map_ext; [exact Hm|]. intros a. simpl.
    now destruct (Memo.id a =? _)%Z.
  - now apply Memo_delete_keeps_keys.
Qed.

(** X9. When the database never hands out a key in use, the ids are keys in
    every database the application can reach: no two users share an id and
    no two memos do, so [Memo.query.get] and [load_user] have one row to
    find. *)
Theorem reachable_keyed (db : DB) :
  (forall ids, ~ In (fresh_id ids) ids) ->
  reachable db -> keyed db.
Proof.
  intros Hfresh. induction 1 as [|db env r req sess Hr IH].
  - split; constructor.
  - now apply dispatch_keyed.
Qed.

Lemma dispatch_owned env r req db sess :
  owned db -> owned (out_db (dispatch env r req db sess)).
Proof.
  unfold owned. rewrite !Forall_forall. intros Ho.
  destruct r; unfold dispatch, index, register, login, logout, new_memo, edit_memo,
    delete_memo, memo_redirect, login_required; case_handler; try exact Ho; simpl.
  - intros m Hin. rewrite map_app. apply in_or_app. left. now apply Ho.
  - intros m Hin. apply in_app_or in Hin as [Hin|[<-|[]]]; [now apply Ho|]. simpl.
    match goal with
    | H : current_user _ _ = Some ?u |- _ =>
        destruct sess as [uid|]; [|discriminate H];
        apply current_user_id in H as [Hin Hid]
    end.
    now apply in_map.
  - intros m Hin. apply in_map_iff in Hin as [x [Hx Hin]].
    destruct (Memo.id x =? _)%Z; subst m; simpl; now apply Ho.
  - intros m Hin. apply filter_In in Hin as [Hin _]. now apply Ho.
Qed.

(** X10. Every memo has an owner: in every database the application can
    reach, the [user_id] of each memo is the id of a stored user. *)
Theorem reachable_owned (db : DB) :
  reachable db ->
  forall m, In m (memos db) -> exists u, In u (users db) /\ User.id u = Memo.user_id m.
Proof.
  intros Hr.
  assert (Ho : owned db).
  { induction Hr as [|db env r req sess Hr IH]; [constructor|].
    now apply dispatch_owned. }
  intros m Hin. unfold owned in Ho. rewrite Forall_forall in Ho.
  apply Ho, in_map_iff in Hin as [u [Hu Hin]]. now exists u.
Qed.

(** *** Each user's memos are their own *)

Lemma same_id_same_row (l : list Memo.t) (x y : Memo.t) :
  NoDup (map Memo.id l) -> In x l -> In y l -> Memo.id x = Memo.id y -> x = y.
Proof.
  induction l as [|a l IH]; simpl; intros Hnd Hx Hy Hid; [contradiction|].
  inversion Hnd as [|? ? Hnin Hnd']; subst.
  destruct Hx as [->|Hx], Hy as [->|Hy]; auto.
  - exfalso. apply Hnin. rewrite Hid. now apply in_map.
  - exfalso. apply Hnin. rewrite <- Hid. now apply in_map.
Qed.

Lemma filter_update_foreign (l : list Memo.t) (mid uid : Z) (t : pystr) (c : option pystr) :
  (forall x, In x l -> Memo.id x = mid -> Memo.user_id x <> uid) ->
  filter (fun m => Z.eqb (Memo.user_id m) uid)
    (map (fun m => if Z.eqb (Memo.id m) mid
                   then Memo.mk (Memo.id m) t c (Memo.created_at m) (Memo.user_id m)
                   else m) l)
  = filter (fun m => Z.eqb (Memo.user_id m) uid) l.
Proof.
  induction l as [|a l IH]; simpl; intros H; [reflexivity|].
  rewrite IH by (intros x Hx; apply H; now right).
  destruct (Z.eqb_spec (Memo.id a) mid) as [E|E]; simpl; [|reflexivity].
  assert (Hne : (Memo.user_id a =? uid)%Z = false)
    by (apply Z.eqb_neq, H; [now left | exact E]).
  now rewrite Hne.
Qed.

Lemma filter_delete_foreign (l : list Memo.t) (mid uid : Z) :
  (forall x, In x l -> Memo.id x = mid -> Memo.user_id x <> uid) ->
  filter (fun m => Z.eqb (Memo.user_id m) uid)
    (filter (fun m => negb (Z.eqb (Memo.id m) mid)) l)
  = filter (fun m => Z.eqb (Memo.user_id m) uid) l.
Proof.
  induction l as [|a l IH]; simpl; intros H; [reflexivity|].
  specialize (IH (fun x Hx => H x (or_intror Hx))).
  destruct (Z.eqb_spec (Memo.id a) mid) as [E|E]; simpl.
  - assert (Hne : (Memo.user_id a =? uid)%Z = false)
      by (apply Z.eqb_neq, H; [now left | exact E]).
    now rewrite Hne.
  - now rewrite IH.
Qed.

(** One request under a cookie that is not [uid]'s leaves the memos of
    [uid] as they were. *)
Lemma dispatch_foreign_memos
    (env : Env) (r : Route) (req : Request) (db : DB) (sess : Session) (uid : Z) :
  NoDup (map Memo.id (memos db)) ->
  (forall cu, current_user db sess = Some cu -> User.id cu <> uid) ->
  Memo_filter_by_user (out_db (dispatch env r req db sess)) uid
  = Memo_filter_by_user db uid.
Proof.
  intros Hnd Hother. unfold Memo_filter_by_user.
  assert (Hrow : forall memo cu mid,
             current_user db sess = Some cu ->
             Memo_get db mid = Some memo ->
             negb (Memo.user_id memo =? User.id cu)%Z = false ->
             forall x, In x (memos db) -> Memo.id x = Memo.id memo ->
                       Memo.user_id x <> uid).
  { intros memo cu mid Hcu Hget Hown x Hx Hid.
    apply negb_false_iff, Z.eqb_eq in Hown.
    apply Memo_get_id in Hget as [Hin _].
    rewrite (same_id_same_row (memos db) x memo Hnd Hx Hin Hid), Hown.
    now apply Hother. }
  destruct r; unfold dispatch, index, register, login, logout, new_memo, edit_memo,
    delete_memo, memo_redirect, login_required; case_handler; try reflexivity; simpl.
  - rewrite filter_app. simpl.
    pose proof (Hother _ eq_refl) as Hne.
    apply Z.eqb_neq in Hne. rewrite Hne. apply app_nil_r.
  - apply filter_update_foreign.
    eapply Hrow; [reflexivity | eassumption | eassumption].
  - apply filter_delete_foreign.
    eapply Hrow; [reflexivity | eassumption | eassumption].
Qed.

(** X11. No request reaches into another user's memos.  With memo ids that
    are keys, a request on any route, with any form, made under a cookie
    that is not user [uid]'s leaves the memos of [uid], the rows and their
    order, exactly as they were; and a request under a cookie that names no
    stored user changes no memo at all. *)
Theorem other_users_memos_untouched
    (env : Env) (r : Route) (req : Request) (db : DB) (sess : Session) (uid : Z) :
  NoDup (map Memo.id (memos db)) ->
  (forall cu, current_user db sess = Some cu -> User.id cu <> uid) ->
  Memo_filter_by_user (out_db (dispatch env r req db sess)) uid
  = Memo_filter_by_user db uid
  /\ (current_user db sess = None ->
      memos (out_db (dispatch env r req db sess)) = memos db).
Proof.
  intros Hnd Hother. split; [now apply dispatch_foreign_memos|].
  intros Hnone.
  destruct r; unfold dispatch, index, register, login, logout, new_memo, edit_memo,
    delete_memo, memo_redirect, login_required; rewrite ?Hnone; case_handler;
    reflexivity.
Qed.

(** X12. A new account begins with an empty list.  When the database never
    hands out a key in use, a registration that goes through in a reachable
    database creates a user who owns no memo, and the list served to that
    user's session is empty. *)
Theorem new_user_has_no_memos
    (env : Env) (req : Request) (db : DB) (sess : Session) :
  (forall ids, ~ In (fresh_id ids) ids) ->
  reachable db ->
  method req = POST ->
  let username := strip (form_get (form req) "username" []) in
  let password := form_get (form req) "password" [] in
  username <> [] -> password <> [] ->
  ~ In username (map User.username (users db)) ->
  let o := register env req db sess in
  exists u : User.t,
    users (out_db o) = users db ++ [u]
    /\ User.username u = username
    /\ Memo_filter_by_user (out_db o) (User.id u) = []
    /\ index (out_db o) (Some (User.id u))
       = respond (out_db o) (Some (User.id u)) [] (render_index []).
Proof.
  intros Hfresh Hr Hpost username password Hu Hp Hfree o.
  destruct (register_conflict_iff env req db sess Hpost Hu Hp) as [_ Hnew].
  unfold o. rewrite (Hnew Hfree). fold username password. simpl.
  set (u := User.mk (fresh_id (map User.id (users db))) username
                    (generate_password_hash (salt env) password)).
  set (db' := User_add env db username password).
  assert (Hnone : Memo_filter_by_user db' (User.id u) = []).
  { unfold Memo_filter_by_user. simpl.
    assert (Ho : owned db).
    { clear -Hr. induction Hr as [|db env r req sess Hr IH]; [constructor|].
      now apply dispatch_owned. }
    unfold owned in Ho. rewrite Forall_forall in Ho.
    induction (memos db) as [|m l IH]; simpl; [reflexivity|].
    destruct (Z.eqb_spec (Memo.user_id m) (fresh_id (map User.id (users db)))) as [E|E].
    - exfalso. apply (Hfresh (map User.id (users db))). rewrite <- E.
      apply Ho. now left.
    - apply IH. intros x Hx. apply Ho. now right. }
  exists u. split; [reflexivity|]. split; [reflexivity|]. split; [exact Hnone|].
  assert (Hin : In u (users db')) by (simpl; apply in_or_app; right; now left).
  destruct (User_get_in db' u Hin) as [cu [Hcu Hid]].
  rewrite (index_logged_in db' (Some (User.id u)) cu Hcu), Hid, Hnone. reflexivity.
Qed.

(** *** The list after a write *)

Lemma order_by_snoc_newest (l : list Memo.t) (m : Memo.t) :
  Forall (fun x => (Memo.created_at x < Memo.created_at m)%Z) l ->
  order_by_created_at_desc (l ++ [m]) = m :: order_by_created_at_desc l.
Proof.
  induction 1 as [|x l Hx Hl IH]; simpl; [reflexivity|].
  rewrite IH. simpl.
  destruct (Z.leb_spec (Memo.created_at m) (Memo.created_at x)); [lia | reflexivity].
Qed.

(** X13. A memo saved when the clock is past every [created_at] of the
    user's memos comes first in the user's next list, ahead of the list as
    it was. *)
Theorem new_memo_heads_the_list
    (env : Env) (req : Request) (db : DB) (sess : Session) (cu : User.t) :
  current_user db sess = Some cu ->
  method req = POST ->
  strip (form_get (form req) "title" []) <> [] ->
  (forall m, In m (memos db) -> Memo.user_id m = User.id cu ->
             (Memo.created_at m < now env)%Z) ->
  let o := new_memo env req db sess in
  exists (m : Memo.t) (before : list Memo.t),
    index db sess = respond db sess [] (render_index before)
    /\ index (out_db o) (out_session o)
       = respond (out_db o) (out_session o) [] (render_index (m :: before))
    /\ Memo.title m = strip (form_get (form req) "title" [])
    /\ Memo.created_at m = now env.
Proof.
  intros Hcu Hpost Ht Hclock o.
  assert (Ho : o = {| out_db := Memo_add env db (strip (form_get (form req) "title" []))
                                  (Some (strip (form_get (form req) "content" [])))
                                  (User.id cu);
                      out_session := sess;
                      out_flash := [msg_memo_saved];
                      out_body := redirect ep_index |}).
  { unfold o, new_memo. rewrite (login_required_some _ _ _ _ Hcu), Hpost.
    destruct (strip (form_get (form req) "title" [])); [congruence | reflexivity]. }
  rewrite Ho. simpl.
  exists (Memo.mk (fresh_id (map Memo.id (memos db)))
            (strip (form_get (form req) "title" []))
            (Some (strip (form_get (form req) "content" [])))
            (now env) (User.id cu)).
  exists (order_by_created_at_desc (Memo_filter_by_user db (User.id cu))).
  split; [now apply index_logged_in|]. split; [|split; reflexivity].
  rewrite (index_logged_in _ sess cu) by (rewrite <- Hcu; now apply current_user_users).
  unfold Memo_filter_by_user at 1. simpl. rewrite filter_app. simpl.
  rewrite Z.eqb_refl, order_by_snoc_newest; [reflexivity|].
  apply Forall_forall. intros x Hx. apply filter_In in Hx as [Hin Hu].
  apply Z.eqb_eq in Hu. simpl. now apply Hclock.
Qed.





Lemma insert_desc_oldest (x : Memo.t) (l : list Memo.t) :
  Forall (fun z => (Memo.created_at z <= Memo.created_at x)%Z) l ->
  insert_desc x l = x :: l.
Proof.
  destruct 1 as [|z l Hz _]; simpl; [reflexivity|].
  apply Z.leb_le in Hz. now rewrite Hz.
Qed.

Lemma filter_insert_desc (p : Memo.t -> bool) (x : Memo.t) (l : list Memo.t) :
  StronglySorted newer_eq l ->
  filter p (insert_desc x l)
  = if p x then insert_desc x (filter p l) else filter p l.
Proof.
  induction 1 as [|y l Hs IH Hall]; simpl; [now destruct (p x)|].
  destruct (Z.leb_spec (Memo.created_at y) (Memo.created_at x)) as [Hle|Hgt]; simpl.
  - destruct (p x); [|reflexivity]. symmetry. apply insert_desc_oldest.
    apply Forall_forall. intros z Hz.
    assert (Hin : In z (y :: l)).
    { change (filter p (y :: l)) with (if p y then y :: filter p l else filter p l) in Hz.
      destruct (p y).
      - destruct Hz as [<-|Hz]; [now left|]. right. now apply filter_In in Hz.
      - right. now apply filter_In in Hz. }
    destruct Hin as [<-|Hin]; [exact Hle|].
    rewrite Forall_forall in Hall. specialize (Hall z Hin). unfold newer_eq in Hall. lia.
  - rewrite IH. destruct (p y), (p x); simpl; try reflexivity.
    destruct (Z.leb_spec (Memo.created_at y) (Memo.created_at x)); [lia | reflexivity].
Qed.

Lemma order_by_filter (p : Memo.t -> bool) (l : list Memo.t) :
  order_by_created_at_desc (filter p l) = filter p (order_by_created_at_desc l).
Proof.
  induction l as [|x l IH]; simpl; [reflexivity|].
  rewrite (filter_insert_desc p x _ (order_by_sorted l)), <- IH.
  now destruct (p x).
Qed.

Lemma filter_comm {A : Type} (p q : A -> bool) (l : list A) :
  filter p (filter q l) = filter q (filter p l).
Proof.
  induction l as [|a l IH]; simpl; [reflexivity|].
  destruct (p a) eqn:Ep, (q a) eqn:Eq; simpl; rewrite ?Ep, ?Eq, IH; reflexivity.
Qed.

(** X15. A delete takes the memo out of the list and nothing else: after
    the owner's delete the list is the old one without the rows of that id,
    the others in the order they had. *)
Theorem delete_removes_from_the_list
    (db : DB) (sess : Session) (cu : User.t) (mid : Z) (memo : Memo.t) :
  current_user db sess = Some cu ->
  Memo_get db mid = Some memo ->
  Memo.user_id memo = User.id cu ->
  let o := delete_memo mid db sess in
  exists before : list Memo.t,
    index db sess = respond db sess [] (render_index before)
    /\ In memo before
    /\ index (out_db o) (out_session o)
       = respond (out_db o) (out_session o) []
           (render_index (filter (fun m => negb (Z.eqb (Memo.id m) mid)) before)).
Proof.
  intros Hcu Hget Hown o.
  destruct (Memo_get_id _ _ _ Hget) as [Hin Hid].
  assert (Ho : o = {| out_db := Memo_delete db mid;
                      out_session := sess;
                      out_flash := [msg_memo_deleted];
                      out_body := redirect ep_index |}).
  { unfold o, delete_memo. rewrite (login_required_some _ _ _ _ Hcu), Hget, Hown.
    rewrite Z.eqb_refl. simpl. rewrite Hid. reflexivity. }
  rewrite Ho. simpl.
  exists (order_by_created_at_desc (Memo_filter_by_user db (User.id cu))).
  split; [now apply index_logged_in|].
  split; [apply own_memo_listed; now split|].
  rewrite (index_logged_in _ sess cu) by (rewrite <- Hcu; now apply current_user_users).
  unfold Memo_filter_by_user. simpl.
  now rewrite filter_comm, order_by_filter.
Qed.

(** *** Rendering, further *)

Lemma splitlines_plain (s : pystr) :
  Forall (fun x => is_linebreak x = false) s ->
  splitlines s = match s with [] => [] | _ => [s] end.
Proof.
  intros Hs. destruct s as [|c s]; [reflexivity|].
  pose proof (splitlines_plain_prefix (c :: s) [] Hs) as H.
  rewrite app_nil_r in H. apply H. discriminate.
Qed.

Lemma splitlines_plain_lf (s : pystr) :
  Forall (fun x => is_linebreak x = false) s ->
  splitlines (s ++ [LF]) = [s].
Proof.
  intros Hs. destruct s as [|c s]; [reflexivity|].
  rewrite (splitlines_plain_prefix (c :: s) [LF] Hs) by discriminate.
  simpl. now rewrite app_nil_r.
Qed.

(** X16. A text of one line is only escaped: when no character of the text
    is a line boundary, [nl2br_filter] gives the escaped text with no break
    in it, and the same with one line feed at the end of the text. *)
Theorem nl2br_filter_single_line (s : pystr) :
  Forall (fun x => is_linebreak x = false) s ->
  nl2br_filter (Some s) = escape s
  /\ nl2br_filter (Some (s ++ [LF])) = escape s.
Proof.
  intros Hs. simpl. rewrite !splitlines_escape.
  rewrite (splitlines_plain_lf s Hs), (splitlines_plain s Hs).
  split; [|reflexivity]. now destruct s.
Qed.

Lemma count_occ_unescaped (s : pystr) (k : N) :
  is_markup k = true -> count_occ N.eq_dec (escape s) k = 0%nat.
Proof.
  intros Hk. apply count_occ_not_In. intros Hin.
  apply escape_no_markup in Hin. congruence.
Qed.

Lemma count_occ_join (ls : list pystr) (k : N) :
  Forall (fun l => count_occ N.eq_dec l k = 0%nat) ls ->
  count_occ N.eq_dec (join br_sep ls) k
  = (count_occ N.eq_dec br_sep k * pred (List.length ls))%nat.
Proof.
  induction 1 as [|l ls Hl Hls IH]; [simpl; lia|].
  destruct ls as [|l' ls]; [simpl; lia|].
  change (join br_sep (l :: l' :: ls)) with (l ++ br_sep ++ join br_sep (l' :: ls)).
  rewrite !count_occ_app, IH, Hl. simpl List.length. simpl pred. lia.
Qed.

(** X17. The only tags in the result of [nl2br_filter] are the breaks it
    put there: the result has as many opening and as many closing angle
    brackets as there are gaps between the lines of the text, and no single
    or double quote at all. *)
Theorem nl2br_filter_tags_are_breaks (s : pystr) :
  let out := nl2br_filter (Some s) in
  let gaps := pred (List.length (splitlines s)) in
  count_occ N.eq_dec out 60%N = gaps
  /\ count_occ N.eq_dec out 62%N = gaps
  /\ count_occ N.eq_dec out 34%N = 0%nat
  /\ count_occ N.eq_dec out 39%N = 0%nat.
Proof.
  simpl. rewrite splitlines_escape.
  assert (H : forall k, is_markup k = true ->
                        count_occ N.eq_dec (join br_sep (map escape (splitlines s))) k
                        = (count_occ N.eq_dec br_sep k
                           * pred (List.length (splitlines s)))%nat).
  { intros k Hk. rewrite count_occ_join, length_map; [reflexivity|].
    apply Forall_forall. intros l Hl. apply in_map_iff in Hl as [x [<- _]].
    now apply count_occ_unescaped. }
  rewrite !H by reflexivity.
  change (count_occ N.eq_dec br_sep 60%N) with 1%nat.
  change (count_occ N.eq_dec br_sep 62%N) with 1%nat.
  change (count_occ N.eq_dec br_sep 34%N) with 0%nat.
  change (count_occ N.eq_dec br_sep 39%N) with 0%nat.
  repeat split; lia.
Qed.

(** X18. Whatever the others do, a user's memos stay.  When the database
    never hands out a key in use and the ids are keys, any run of requests
    none of which carries user [uid]'s cookie leaves the memos of [uid], the
    rows and their order, as they were. *)
Theorem memos_survive_other_sessions (cs : list Call) (db : DB) (uid : Z) :
  (forall ids, ~ In (fresh_id ids) ids) ->
  keyed db ->
  Forall (fun c => call_sess c <> Some uid) cs ->
  Memo_filter_by_user (run_calls db cs) uid = Memo_filter_by_user db uid.
Proof.
  intros Hfresh Hk Hcs. revert db Hk.
  induction Hcs as [|c cs Hc Hcs IH]; intros db Hk; simpl; [reflexivity|].
  rewrite IH by now apply dispatch_keyed.
  unfold run_call. apply dispatch_foreign_memos; [apply Hk|].
  intros cu Hcu Hid. destruct (call_sess c) as [k|]; [|discriminate Hcu].
  apply current_user_id in Hcu as [_ Hcu]. congruence.
Qed.

(** *** Writing, then reading or undoing *)

Lemma Memo_get_fresh (l : list Memo.t) (m : Memo.t) :
  ~ In (Memo.id m) (map Memo.id l) ->
  find (fun x => Z.eqb (Memo.id x) (Memo.id m)) (l ++ [m]) = Some m.
Proof.
  intros Hnew. apply find_app_new; [|apply Z.eqb_refl].
  destruct (find _ l) as [x|] eqn:E; [|reflexivity].
  apply find_some in E as [Hin E]. apply Z.eqb_eq in E.
  exfalso. apply Hnew. rewrite <- E. now apply in_map.
Qed.

Lemma filter_drop_fresh (l : list Memo.t) (mid : Z) :
  ~ In mid (map Memo.id l) ->
  filter (fun x => negb (Z.eqb (Memo.id x) mid)) l = l.
Proof.
  induction l as [|a l IH]; simpl; intros Hnew; [reflexivity|].
  destruct (Z.eqb_spec (Memo.id a) mid) as [E|E]; simpl; [tauto|].
  rewrite IH; [reflexivity | tauto].
Qed.

(** X19. What was saved is what is read back, and deleting it undoes the
    save.  When the key of the new row is not in use, a memo just created is
    the one the edit form of its id shows to its author, and the author's
    delete of that id gives back the memos table as it was before. *)
Theorem new_memo_then_read_or_delete
    (env : Env) (req req' : Request) (db : DB) (sess : Session) (cu : User.t) :
  current_user db sess = Some cu ->
  method req = POST -> method req' = GET ->
  strip (form_get (form req) "title" []) <> [] ->
  ~ In (fresh_id (map Memo.id (memos db))) (map Memo.id (memos db)) ->
  let o := new_memo env req db sess in
  exists m : Memo.t,
    memos (out_db o) = memos db ++ [m]
    /\ edit_memo (Memo.id m) req' (out_db o) (out_session o)
       = respond (out_db o) (out_session o) [] (render_memo_form (Some m))
    /\ memos (out_db (delete_memo (Memo.id m) (out_db o) (out_session o))) = memos db
    /\ out_flash (delete_memo (Memo.id m) (out_db o) (out_session o))
       = [msg_memo_deleted].
Proof.
  intros Hcu Hpost Hget Ht Hnew o.
  set (m := Memo.mk (fresh_id (map Memo.id (memos db)))
              (strip (form_get (form req) "title" []))
              (Some (strip (form_get (form req) "content" [])))
              (now env) (User.id cu)).
  assert (Ho : o = {| out_db := Memo_add env db (Memo.title m) (Memo.content m)
                                  (User.id cu);
                      out_session := sess;
                      out_flash := [msg_memo_saved];
                      out_body := redirect ep_index |}).
  { unfold o, new_memo. rewrite (login_required_some _ _ _ _ Hcu), Hpost. simpl.
    destruct (strip (form_get (form req) "title" [])); [congruence | reflexivity]. }
  rewrite Ho. cbn [out_db out_session out_flash out_body].
  exists m. split; [reflexivity|].
  set (db' := Memo_add env db (Memo.title m) (Memo.content m) (User.id cu)).
  assert (Hcu' : current_user db' sess = Some cu)
    by (rewrite <- Hcu; now apply current_user_users).
  assert (Hfound : Memo_get db' (Memo.id m) = Some m)
    by (apply (Memo_get_fresh (memos db) m); exact Hnew).
  split; [|split].
  - unfold edit_memo. rewrite (login_required_some _ _ _ _ Hcu'), Hfound. simpl.
    now rewrite Z.eqb_refl, Hget.
  - unfold delete_memo. rewrite (login_required_some _ _ _ _ Hcu'), Hfound. simpl.
    rewrite Z.eqb_refl. simpl. rewrite filter_app. simpl. rewrite Z.eqb_refl. simpl.
    rewrite app_nil_r. now apply filter_drop_fresh.
  - unfold delete_memo. rewrite (login_required_some _ _ _ _ Hcu'), Hfound. simpl.
    now rewrite Z.eqb_refl.
Qed.

(** X20. Sending the edit form again changes nothing more: after the
    owner's POST, the same POST gives the same database and the same
    answer. *)
Theorem edit_memo_twice
    (db : DB) (sess : Session) (cu : User.t) (mid : Z) (memo : Memo.t) (req : Request) :
  current_user db sess = Some cu ->
  Memo_get db mid = Some memo ->
  Memo.user_id memo = User.id cu ->
  method req = POST ->
  let o := edit_memo mid req db sess in
  edit_memo mid req (out_db o) (out_session o) = o.
Proof.
  intros Hcu Hget Hown Hpost o.
  destruct (Memo_get_id _ _ _ Hget) as [_ Hid].
  set (t := strip (form_get (form req) "title" [])).
  set (c := strip (form_get (form req) "content" [])).
  assert (Ho : o = {| out_db := Memo_update db mid t (Some c);
                      out_session := sess;
                      out_flash := [msg_memo_updated];
                      out_body := redirect ep_index |}).
  { unfold o, edit_memo. rewrite (login_required_some _ _ _ _ Hcu), Hget, Hown.
    rewrite Z.eqb_refl. simpl. rewrite Hpost, Hid. reflexivity. }
  rewrite Ho. simpl.
  assert (Hcu' : current_user (Memo_update db mid t (Some c)) sess = Some cu)
    by (rewrite <- Hcu; now apply current_user_users).
  unfold edit_memo.
  rewrite (login_required_some _ _ _ _ Hcu'), (Memo_get_update_same db mid t (Some c) memo Hget).
  simpl. rewrite Hown, Z.eqb_refl, Hpost. simpl. fold t c. rewrite Hid.
  f_equal. unfold Memo_update. simpl. f_equal. rewrite map_map.
  apply map_ext. intros a. destruct (Memo.id a =? mid)%Z eqn:E; simpl; now rewrite E.
Qed.

End App.

(** ** The properties at concrete inputs *)

(** Bob (id 2) asks to edit and to delete Alice's memo 1. *)
Lemma foreign_memo_edit_delete_denied_witness :
  let m := Memo.mk 1 (py "Shopping") (Some (py "milk")) 10 1 in
  let req := post [field "title" (py "mine now"); field "content" []] in
  (current_user demo_db (Some 2%Z) = Some bob
   /\ Memo_get demo_db 1 = Some m
   /\ User.id bob <> Memo.user_id m)
  /\ edit_memo 1 req demo_db (Some 2%Z)
     = respond demo_db (Some 2%Z) [msg_forbidden] (redirect ep_index)
  /\ delete_memo 1 demo_db (Some 2%Z)
     = respond demo_db (Some 2%Z) [msg_forbidden] (redirect ep_index)
  /\ Memo_get (out_db (edit_memo 1 req demo_db (Some 2%Z))) 1 = Some m
  /\ Memo_get (out_db (delete_memo 1 demo_db (Some 2%Z))) 1 = Some m.
Proof.
  intros m req.
  assert (H1 : current_user demo_db (Some 2%Z) = Some bob) by reflexivity.
  assert (H2 : Memo_get demo_db (Memo.id m) = Some m) by reflexivity.
  assert (H3 : User.id bob <> Memo.user_id m) by (simpl; lia).
  split; [repeat split; assumption|].
  exact (foreign_memo_edit_delete_denied demo_db (Some 2%Z) bob m req H1 H2 H3).
Defined.

(** A password of one space passes the test of [register]: the password is
    not trimmed, and the user is created. *)
Lemma register_blank_password_creates_user :
  let req := post [field "username" (py "alice"); field "password" (py " ")] in
  let o := register demo_generate_password_hash rowid_fresh demo_env req empty_db None in
  method req = POST
  /\ strip (form_get (form req) "password" []) = []
  /\ out_flash o = [msg_account_created]
  /\ users (out_db o) = [User.mk 1 (py "alice") (py "s$ ")]
  /\ users (out_db o) <> users empty_db.
Proof.
  intros req o. repeat split. vm_compute. discriminate.
Qed.

(** An empty password is refused, a blank one is stored under the name
    trimmed. *)
Lemma register_requires_username_and_raw_password_witness :
  let req := post [field "username" (py "  alice "); field "password" (py " ")] in
  let o := register demo_generate_password_hash rowid_fresh demo_env req empty_db None in
  method req = POST
  /\ users (out_db o) = [User.mk 1 (py "alice") (py "s$ ")]
  /\ out_flash o = [msg_account_created]
  /\ out_body o = redirect ep_login.
Proof.
  intros req o. split; [reflexivity|].
  refine (proj2 (register_requires_username_and_raw_password
                   demo_generate_password_hash rowid_fresh demo_env req empty_db None
                   eq_refl) _ _ eq_refl); vm_compute; discriminate.
Defined.

(** Alice registers twice, the first time with blanks around her name. *)
Lemma register_twice_conflict_witness :
  let req1 := post [field "username" (py " alice "); field "password" (py "pw123")] in
  let req2 := post [field "username" (py "alice"); field "password" (py "other")] in
  let o1 := register demo_generate_password_hash rowid_fresh demo_env req1 empty_db None in
  let o2 := register demo_generate_password_hash rowid_fresh demo_env req2 (out_db o1) None in
  reachable demo_generate_password_hash demo_check_password_hash rowid_fresh empty_db
  /\ o2 = respond (out_db o1) None [msg_username_taken] (redirect ep_register)
  /\ users (out_db o2) = users (out_db o1)
  /\ count_username (out_db o2) (py "alice") = 1%nat.
Proof.
  intros req1 req2 o1 o2.
  assert (Hr : reachable demo_generate_password_hash demo_check_password_hash
                 rowid_fresh empty_db) by constructor.
  split; [exact Hr|].
  assert (Hn : py "alice" <> []) by (vm_compute; discriminate).
  assert (Hp1 : form_get (form req1) "password" [] <> []) by (vm_compute; discriminate).
  assert (Hp2 : form_get (form req2) "password" [] <> []) by (vm_compute; discriminate).
  destruct (register_twice_conflict demo_generate_password_hash
              demo_check_password_hash rowid_fresh demo_env demo_env req1 req2
              empty_db None None (py "alice")
              Hr eq_refl eq_refl eq_refl eq_refl Hn Hp1 Hp2) as [H2 [Hu [Hc _]]].
  repeat split; assumption.
Defined.

(** Alice logs in with her password. *)
Lemma login_success_and_generic_failure_witness :
  let req := post [field "username" (py "alice"); field "password" (py "pw123")] in
  method req = POST
  /\ login demo_check_password_hash req demo_db None
     = {| out_db := demo_db; out_session := Some 1%Z;
          out_flash := []; out_body := redirect ep_index |}.
Proof.
  intros req. split; [reflexivity|].
  exact (proj1 (proj1 (login_success_and_generic_failure
                         demo_check_password_hash req demo_db None eq_refl)
                  alice eq_refl eq_refl)).
Defined.

(** A wrong password and an unknown name are answered alike. *)
Example login_failures_alike :
  login demo_check_password_hash
    (post [field "username" (py "alice"); field "password" (py "pw124")]) demo_db None
  = login demo_check_password_hash
      (post [field "username" (py "carol"); field "password" (py "pw123")]) demo_db None.
Proof. reflexivity. Qed.

(** Alice's list: her three memos, of times 10, 20 and 40, newest first. *)
Lemma index_lists_own_memos_newest_first_witness :
  current_user demo_db (Some 1%Z) = Some alice
  /\ index demo_db (Some 1%Z)
     = respond demo_db (Some 1%Z) []
         (render_index [Memo.mk 4 (py "Gifts") (Some []) 40 1;
                        Memo.mk 3 (py "Books") (Some (py "SICP")) 20 1;
                        Memo.mk 1 (py "Shopping") (Some (py "milk")) 10 1]).
Proof.
  split; [reflexivity|].
  destruct (index_lists_own_memos_newest_first demo_db (Some 1%Z) alice eq_refl)
    as [ms [Hi [_ [_ [_ [_ Huniq]]]]]].
  rewrite Hi. do 2 f_equal. apply Huniq.
  - exact (Permutation_sym (Permutation_rev (Memo_filter_by_user demo_db 1))).
  - repeat constructor; unfold newer; simpl; lia.
Defined.

(** Alice saves a memo at time 1000 and finds it in her list. *)
Lemma new_memo_creates_iff_title_witness :
  let req := post [field "title" (py " Eggs "); field "content" (py "a dozen ")] in
  let o := new_memo rowid_fresh demo_env req demo_db (Some 1%Z) in
  (current_user demo_db (Some 1%Z) = Some alice /\ method req = POST)
  /\ exists m : Memo.t,
      memos (out_db o) = memos demo_db ++ [m]
      /\ Memo.title m = py "Eggs"
      /\ Memo.content m = Some (py "a dozen")
      /\ Memo.user_id m = 1%Z
      /\ Memo.created_at m = 1000%Z
      /\ exists ms, index (out_db o) (out_session o)
                    = respond (out_db o) (out_session o) [] (render_index ms)
                    /\ In m ms.
Proof.
  intros req o. split; [split; reflexivity|].
  destruct (proj2 (new_memo_creates_iff_title rowid_fresh demo_env req demo_db
                     (Some 1%Z) alice eq_refl eq_refl))
    as [m [Hm [_ [Ht [Hc [Hu [Hn [_ [_ Hl]]]]]]]]].
  - vm_compute. discriminate.
  - exists m. repeat split; assumption.
Defined.

(** Without a title nothing is saved. *)
Example new_memo_blank_title :
  new_memo rowid_fresh demo_env
    (post [field "title" (py "   "); field "content" (py "a dozen")]) demo_db (Some 1%Z)
  = respond demo_db (Some 1%Z) [msg_title_required] (redirect ep_new_memo).
Proof. reflexivity. Qed.

(** Alice blanks the title of her memo 1. *)
Lemma edit_memo_post_overwrites_title_content_witness :
  let memo := Memo.mk 1 (py "Shopping") (Some (py "milk")) 10 1 in
  let req := post [field "title" (py "  "); field "content" (py " bread")] in
  (current_user demo_db (Some 1%Z) = Some alice
   /\ Memo_get demo_db 1 = Some memo
   /\ Memo.user_id memo = User.id alice
   /\ method req = POST)
  /\ Memo_get (out_db (edit_memo 1 req demo_db (Some 1%Z))) 1
     = Some (Memo.mk 1 [] (Some (py "bread")) 10 1).
Proof.
  intros memo req. split; [repeat split|].
  exact (proj1 (proj2 (proj2 (edit_memo_post_overwrites_title_content
                                demo_db (Some 1%Z) alice 1 memo req
                                eq_refl eq_refl eq_refl eq_refl)))).
Defined.


(** The break [nl2br_filter] inserts is the tag and a line feed, not the tag
    alone. *)
Lemma nl2br_filter_break_has_line_feed :
  nl2br_filter (Some (py "milk" ++ [LF] ++ py "eggs")) <> py "milk<br>eggs".
Proof. vm_compute. discriminate. Qed.

(** After a registration, a login, two memos, an edit and a delete, no memo
    has a null content. *)
Example memo_content_after_a_session :
  let gen := demo_generate_password_hash in
  let chk := demo_check_password_hash in
  let step r req sess db := out_db (dispatch gen chk rowid_fresh demo_env r req db sess) in
  let db1 := step r_register
               (post [field "username" (py "alice"); field "password" (py "pw123")])
               None empty_db in
  let db2 := step r_new_memo (post [field "title" (py "Shopping")]) (Some 1%Z) db1 in
  let db3 := step r_new_memo
               (post [field "title" (py "Work"); field "content" (py " call Bob ")])
               (Some 1%Z) db2 in
  let db4 := step (r_edit_memo 2) (post [field "title" (py "Job")]) (Some 1%Z) db3 in
  memos db4 = [Memo.mk 1 (py "Shopping") (Some []) 1000 1;
               Memo.mk 2 (py "Job") (Some []) 1000 1]
  /\ memos (step (r_delete_memo 1) (post []) (Some 1%Z) db4)
     = [Memo.mk 2 (py "Job") (Some []) 1000 1].
Proof. split; reflexivity. Qed.

(** The duplicate test tells upper case from lower case: after alice, Alice
    is a new user. *)
Example register_is_case_sensitive :
  let reg name db :=
    out_db (register demo_generate_password_hash rowid_fresh demo_env
              (post [field "username" name; field "password" (py "pw")]) db None) in
  map User.username (users (reg (py "Alice") (reg (py "alice") empty_db)))
  = [py "alice"; py "Alice"].
Proof. reflexivity. Qed.

(** ** The further properties at concrete inputs *)

Lemma rowid_fresh_is_fresh (ids : list Z) : ~ In (rowid_fresh ids) ids.
Proof.
  assert (H : forall x, In x ids -> (x <= fold_right Z.max 0 ids)%Z).
  { induction ids as [|a ids IH]; simpl; [contradiction|].
    intros x [<-|Hx]; [lia|]. specialize (IH x Hx). lia. }
  intros Hin. apply H in Hin. unfold rowid_fresh in Hin. lia.
Qed.

Lemma demo_db_keyed : keyed demo_db.
Proof. split; simpl; repeat constructor; simpl; lia. Qed.

(** A cookie of user 7, who does not exist, is sent to the login page. *)
Lemma protected_views_need_a_user_witness :
  (session_in_range (Some 7%Z) /\ anonymous demo_db (Some 7%Z))
  /\ delete_memo 1 demo_db (Some 7%Z) = to_login demo_db (Some 7%Z).
Proof.
  assert (Hr : session_in_range (Some 7%Z)) by (unfold session_in_range, in_int64; lia).
  assert (Ha : anonymous demo_db (Some 7%Z)) by (simpl; lia).
  split; [split; [exact Hr | exact Ha]|].
  exact (proj1 (proj2 (proj2 (proj2 (proj2
    (protected_views_need_a_user rowid_fresh demo_env (post []) 1
       demo_db (Some 7%Z) Hr Ha)))))).
Defined.

(** Alice logs out; her list is no longer served. *)
Lemma logout_ends_the_session_witness :
  current_user demo_db (Some 1%Z) = Some alice
  /\ out_session (logout demo_db (Some 1%Z)) = None
  /\ index demo_db (out_session (logout demo_db (Some 1%Z))) = to_login demo_db None.
Proof.
  split; [reflexivity|].
  destruct (logout_ends_the_session rowid_fresh demo_env (post []) 1
              demo_db (Some 1%Z) alice eq_refl) as [Ho [Hi _]].
  split; [now rewrite Ho | exact Hi].
Defined.

(** A GET on the delete route of her own memo deletes nothing. *)
Lemma get_never_writes_witness :
  let req := {| method := GET; form := [] |} in
  method req = GET
  /\ dispatch demo_generate_password_hash demo_check_password_hash rowid_fresh
       demo_env (r_delete_memo 1) req demo_db (Some 1%Z)
     = respond demo_db (Some 1%Z) [] (abort 405).
Proof.
  intros req. split; [reflexivity|].
  exact (proj2 (get_never_writes demo_generate_password_hash demo_check_password_hash
                  rowid_fresh demo_env (r_delete_memo 1) req demo_db (Some 1%Z) eq_refl)
           1%Z eq_refl).
Defined.

(** A login, even a successful one, leaves the memos alone. *)
Lemma memos_written_by_memo_routes_only_witness :
  let req := post [field "username" (py "alice"); field "password" (py "pw123")] in
  memos (out_db (dispatch demo_generate_password_hash demo_check_password_hash
                   rowid_fresh demo_env r_login req demo_db None))
  = memos demo_db.
Proof.
  intros req.
  apply (memos_written_by_memo_routes_only demo_generate_password_hash
           demo_check_password_hash rowid_fresh demo_env r_login req demo_db None).
  right. right. now left.
Defined.

(** Carol registers and logs in with the form she registered with. *)
Lemma register_then_login_witness :
  let req := post [field "username" (py " carol"); field "password" (py "pw")] in
  let o := register demo_generate_password_hash rowid_fresh demo_env req demo_db None in
  exists u : User.t,
    users (out_db o) = users demo_db ++ [u]
    /\ User.username u = py "carol"
    /\ out_session (login demo_check_password_hash req (out_db o) None)
       = Some (User.id u).
Proof.
  intros req o.
  destruct (register_then_login demo_generate_password_hash demo_check_password_hash
              rowid_fresh demo_env req demo_db None None eq_refl)
    as [u [Hu [Hn [_ [Hl _]]]]].
  - vm_compute. discriminate.
  - vm_compute. discriminate.
  - vm_compute. intros [H|[H|[]]]; discriminate H.
  - reflexivity.
  - exists u. split; [exact Hu|]. split; [exact Hn|]. fold o in Hl. now rewrite Hl.
Defined.

Lemma demo_reached_reachable :
  reachable demo_generate_password_hash demo_check_password_hash rowid_fresh demo_reached.
Proof.
  change demo_reached with
    (out_db (dispatch demo_generate_password_hash demo_check_password_hash rowid_fresh
               demo_env r_new_memo demo_memo_req
               (out_db (dispatch demo_generate_password_hash demo_check_password_hash
                          rowid_fresh demo_env r_register demo_register_req
                          empty_db None))
               (Some 1%Z))).
  do 2 apply reach_step. apply reach_empty.
Qed.

Lemma stored_text_is_trimmed_witness :
  reachable demo_generate_password_hash demo_check_password_hash rowid_fresh demo_reached
  /\ Forall (fun u => User.username u <> [] /\ trimmed (User.username u))
       (users demo_reached).
Proof.
  split; [exact demo_reached_reachable|].
  exact (proj1 (stored_text_is_trimmed demo_generate_password_hash
                  demo_check_password_hash rowid_fresh demo_reached
                  demo_reached_reachable)).
Defined.

Lemma reachable_keyed_witness :
  reachable demo_generate_password_hash demo_check_password_hash rowid_fresh demo_reached
  /\ keyed demo_reached.
Proof.
  split; [exact demo_reached_reachable|].
  exact (reachable_keyed demo_generate_password_hash demo_check_password_hash
           rowid_fresh demo_reached rowid_fresh_is_fresh demo_reached_reachable).
Defined.

Lemma reachable_owned_witness :
  let m := Memo.mk 1 (py "Shopping") (Some (py "milk")) 1000 1 in
  In m (memos demo_reached)
  /\ exists u, In u (users demo_reached) /\ User.id u = Memo.user_id m.
Proof.
  intros m.
  assert (Hin : In m (memos demo_reached)) by (vm_compute; now left).
  split; [exact Hin|].
  exact (reachable_owned demo_generate_password_hash demo_check_password_hash
           rowid_fresh demo_reached demo_reached_reachable m Hin).
Defined.

(** Bob deletes his memo 2; Alice's memos are as they were. *)
Lemma other_users_memos_untouched_witness :
  Memo_filter_by_user
    (out_db (dispatch demo_generate_password_hash demo_check_password_hash rowid_fresh
               demo_env (r_delete_memo 2) (post []) demo_db (Some 2%Z))) 1
  = Memo_filter_by_user demo_db 1.
Proof.
  apply (proj1 (other_users_memos_untouched demo_generate_password_hash
                  demo_check_password_hash rowid_fresh demo_env (r_delete_memo 2)
                  (post []) demo_db (Some 2%Z) 1
                  (proj2 demo_db_keyed)
                  (fun cu Hcu => ltac:(injection Hcu as <-; simpl; lia)))).
Defined.

(** Alice, the first to register, finds an empty list. *)
Lemma new_user_has_no_memos_witness :
  let o := register demo_generate_password_hash rowid_fresh demo_env
             demo_register_req empty_db None in
  exists u : User.t,
    users (out_db o) = [u]
    /\ index (out_db o) (Some (User.id u))
       = respond (out_db o) (Some (User.id u)) [] (render_index []).
Proof.
  intros o.
  destruct (new_user_has_no_memos demo_generate_password_hash demo_check_password_hash
              rowid_fresh demo_env demo_register_req empty_db None
              rowid_fresh_is_fresh
              (reach_empty demo_generate_password_hash demo_check_password_hash
                 rowid_fresh)
              eq_refl)
    as [u [Hu [_ [_ Hi]]]].
  - vm_compute. discriminate.
  - vm_compute. discriminate.
  - simpl. tauto.
  - exists u. split; [exact Hu | exact Hi].
Defined.

(** At time 1000 Alice's new memo goes ahead of those of times 40, 20, 10. *)
Lemma new_memo_heads_the_list_witness :
  let req := post [field "title" (py "Eggs")] in
  let o := new_memo rowid_fresh demo_env req demo_db (Some 1%Z) in
  exists m : Memo.t,
    Memo.title m = py "Eggs"
    /\ index (out_db o) (out_session o)
       = respond (out_db o) (out_session o) []
           (render_index [m;
                          Memo.mk 4 (py "Gifts") (Some []) 40 1;
                          Memo.mk 3 (py "Books") (Some (py "SICP")) 20 1;
                          Memo.mk 1 (py "Shopping") (Some (py "milk")) 10 1]).
Proof.
  intros req o.
  destruct (new_memo_heads_the_list rowid_fresh demo_env req demo_db (Some 1%Z) alice
              eq_refl eq_refl)
    as [m [before [Hb [Ha [Ht _]]]]].
  - vm_compute. discriminate.
  - intros m [<-|[<-|[<-|[<-|[]]]]] _; simpl; lia.
  - exists m. split; [exact Ht|]. fold o in Ha. rewrite Ha.
    injection Hb as <-. reflexivity.
Defined.


(** Alice deletes memo 3; memos 4 and 1 remain, in that order. *)
Lemma delete_removes_from_the_list_witness :
  let o := delete_memo 3 demo_db (Some 1%Z) in
  index (out_db o) (out_session o)
  = respond (out_db o) (out_session o) []
      (render_index [Memo.mk 4 (py "Gifts") (Some []) 40 1;
                     Memo.mk 1 (py "Shopping") (Some (py "milk")) 10 1]).
Proof.
  intros o.
  destruct (delete_removes_from_the_list demo_db (Some 1%Z) alice 3
              (Memo.mk 3 (py "Books") (Some (py "SICP")) 20 1)
              eq_refl eq_refl eq_refl)
    as [before [Hb [_ Ha]]].
  fold o in Ha. rewrite Ha. injection Hb as <-. reflexivity.
Defined.

(** One line with markup in it, with and without a final line feed. *)
Lemma nl2br_filter_single_line_witness :
  nl2br_filter (Some (py "a<b")) = py "a&lt;b"
  /\ nl2br_filter (Some (py "a<b" ++ [LF])) = py "a&lt;b".
Proof.
  apply (nl2br_filter_single_line (py "a<b")).
  repeat constructor.
Defined.

(** Bob deletes his memo and a stranger registers; Alice's memos stay. *)
Lemma memos_survive_other_sessions_witness :
  let cs := [Build_Call demo_env (r_delete_memo 2) (post []) (Some 2%Z);
             Build_Call demo_env r_register
               (post [field "username" (py "carol"); field "password" (py "pw")])
               None;
             Build_Call demo_env (r_edit_memo 1)
               (post [field "title" (py "mine now")]) (Some 3%Z)] in
  Memo_filter_by_user
    (run_calls demo_generate_password_hash demo_check_password_hash rowid_fresh
       demo_db cs) 1
  = Memo_filter_by_user demo_db 1.
Proof.
  intros cs.
  apply memos_survive_other_sessions.
  - exact rowid_fresh_is_fresh.
  - exact demo_db_keyed.
  - repeat constructor; simpl; congruence.
Defined.

(** Alice saves a memo, opens its edit form, then deletes it. *)
Lemma new_memo_then_read_or_delete_witness :
  let req := post [field "title" (py "Eggs")] in
  let o := new_memo rowid_fresh demo_env req demo_db (Some 1%Z) in
  exists m : Memo.t,
    memos (out_db o) = memos demo_db ++ [m]
    /\ memos (out_db (delete_memo (Memo.id m) (out_db o) (out_session o)))
       = memos demo_db.
Proof.
  intros req o.
  destruct (new_memo_then_read_or_delete rowid_fresh demo_env req
              {| method := GET; form := [] |} demo_db (Some 1%Z) alice
              eq_refl eq_refl eq_refl)
    as [m [Hm [_ [Hd _]]]].
  - vm_compute. discriminate.
  - apply rowid_fresh_is_fresh.
  - exists m. split; [exact Hm | exact Hd].
Defined.

(** Alice sends the same edit twice. *)
Lemma edit_memo_twice_witness :
  let req := post [field "title" (py "Groceries"); field "content" (py "milk")] in
  let o := edit_memo 1 req demo_db (Some 1%Z) in
  edit_memo 1 req (out_db o) (out_session o) = o.
Proof.
  intros req o.
  exact (edit_memo_twice demo_db (Some 1%Z) alice 1
           (Memo.mk 1 (py "Shopping") (Some (py "milk")) 10 1) req
           eq_refl eq_refl eq_refl eq_refl).
Defined.

(** ** Where the list is not strict, and where an id comes back *)


(** Two memos saved within one tick of the clock: Alice registers and saves
    two memos at time 1000.  Her list holds both, and in neither order is it
    strictly descending. *)
Lemma index_same_time_not_strict :
  let step r req sess db :=
    out_db (dispatch demo_generate_password_hash demo_check_password_hash rowid_fresh
              demo_env r req db sess) in
  let db := step r_new_memo (post [field "title" (py "Eggs")]) (Some 1%Z)
              (step r_new_memo (post [field "title" (py "Milk")]) (Some 1%Z)
                 (step r_register demo_register_req None empty_db)) in
  let milk := Memo.mk 1 (py "Milk") (Some []) 1000 1 in
  let eggs := Memo.mk 2 (py "Eggs") (Some []) 1000 1 in
  reachable demo_generate_password_hash demo_check_password_hash rowid_fresh db
  /\ current_user db (Some 1%Z) = Some alice
  /\ index db (Some 1%Z) = respond db (Some 1%Z) [] (render_index [milk; eggs])
  /\ ~ StronglySorted newer [milk; eggs]
  /\ ~ StronglySorted newer [eggs; milk].
Proof.
  intros step db milk eggs.
  split; [unfold db, step; do 3 apply reach_step; apply reach_empty|].
  split; [reflexivity|]. split; [reflexivity|].
  split; intros H; inversion H as [|? ? _ Hall]; subst;
    inversion Hall as [|? ? Hlt _]; subst; unfold newer in Hlt; simpl in Hlt; lia.
Qed.

